(** * Plugin-metadata loading and injection (rhdh-e2e-test-utils)

    A shallow embedding of the plugin-metadata utility module: canonical plugin
    identifier extraction, descriptor parsing, the directory scan that builds
    the metadata index, the gating policy, metadata injection and the two
    orchestration entry points, followed by the properties the specification
    states about them.

    Conventions of the embedding.
    - A JavaScript string is the list of its UTF-16 code units ([jsstring]).
    - A [Promise] that resolves or rejects is a [result]: [Ok v] or [Err e],
      where [e] is the message of the thrown [Error].
    - The documents read from disk are not checked against the declared
      [PackageCRD] structure (the cast is erased at run time), so a parsed
      document is an arbitrary [value].  Function parameters have their
      declared types.  A record built from such a document need not be a
      [PluginMetadata]: where [extractPluginName] is called on an artifact
      path that is not a string, the [TypeError] it throws is an [Err]; where
      the module goes on with a configuration that is not a mapping, the
      outcome is [IllTyped] and is not followed further (it is a document
      outside [DynamicPluginsConfig], or it is decided by [deepMerge] on
      that configuration).
    - [process.env], the file system, [path], [glob] and [js-yaml] are
      collaborators of the module; they are gathered in a [World] record
      that every effectful function receives.
    - [console.log] output is not observable by any caller and is left out. *)

From Stdlib Require Import NArith ZArith Bool String Ascii Lia.
From stdpp Require Import base option list gmap.

(** ** Strings *)

Abbreviation char := N (only parsing).
Abbreviation jsstring := (list N) (only parsing).

(** The code units of an ASCII literal. *)
Definition js (s : string) : jsstring :=
  map N_of_ascii (list_ascii_of_string s).

Definition c_bang : char := 33%N.    (* ! *)
Definition c_slash : char := 47%N.   (* / *)
Definition c_colon : char := 58%N.   (* : *)
Definition c_at : char := 64%N.      (* @ *)

(** [s.startsWith(n)] at position 0. *)
Fixpoint starts_with (n h : jsstring) : bool :=
  match n, h with
  | [], _ => true
  | a :: n', b :: h' => N.eqb a b && starts_with n' h'
  | _ :: _, [] => false
  end.

(** [h.includes(n)]. *)
Fixpoint includes (n h : jsstring) : bool :=
  starts_with n h ||
  match h with
  | [] => false
  | _ :: h' => includes n h'
  end.

(** [s.split(sep)] for a separator of one code unit. *)
Fixpoint split (sep : char) (s : jsstring) : list jsstring :=
  match s with
  | [] => [[]]
  | x :: s' =>
      if N.eqb x sep then [] :: split sep s'
      else match split sep s' with
           | h :: t => (x :: h) :: t
           | [] => [[x]]
           end
  end.

(** A string is falsy exactly when it is empty. *)
Definition truthy_str (s : jsstring) : bool :=
  match s with [] => false | _ :: _ => true end.

(** ** Regular expressions

    The fragment of ECMAScript regular expressions used by the module, with
    the backtracking semantics of [RegExp.prototype.exec]: quantifiers are
    greedy, alternatives are tried in priority order, and the first start
    position that admits a match wins.  Quantifiers apply to atoms that
    consume exactly one code unit.  There is a single capturing group. *)

Module Regex.

Inductive re : Type :=
| Atom (p : char -> bool)     (* a literal, a class or [.] *)
| Star (p : char -> bool)     (* atom*  *)
| Plus (p : char -> bool)     (* atom+  *)
| Seq (r1 r2 : re)
| Opt (r : re)                (* (?: r )? *)
| Group (r : re)              (* ( r ), capture 1 *)
| Eos.                        (* $ (no m flag) *)

(** Members of a class [[...]]. *)
Definition one_of (cs : list char) (x : char) : bool :=
  existsb (N.eqb x) cs.

(** Members of a negated class [[^...]]. *)
Definition none_of (cs : list char) (x : char) : bool :=
  negb (one_of cs x).

(** LF, CR, LS and PS. *)
Definition line_terminator (x : char) : bool :=
  one_of [10%N; 13%N; 8232%N; 8233%N] x.

(** [.] without the s flag. *)
Definition dot (x : char) : bool := negb (line_terminator x).

Section Matcher.
Context {A : Type}.

(** A continuation receives the rest of the input and capture 1. *)
Definition cont := jsstring -> option jsstring -> option A.

Fixpoint star (p : char -> bool) (s : jsstring) (c : option jsstring)
         (k : cont) : option A :=
  match s with
  | x :: s' =>
      if p x then
        match star p s' c k with
        | Some a => Some a
        | None => k s c
        end
      else k s c
  | [] => k s c
  end.

Fixpoint run (r : re) (s : jsstring) (c : option jsstring) (k : cont)
  : option A :=
  match r with
  | Atom p =>
      match s with
      | x :: s' => if p x then k s' c else None
      | [] => None
      end
  | Star p => star p s c k
  | Plus p =>
      match s with
      | x :: s' => if p x then star p s' c k else None
      | [] => None
      end
  | Seq r1 r2 => run r1 s c (fun s' c' => run r2 s' c' k)
  | Opt r1 =>
      match run r1 s c k with
      | Some a => Some a
      | None => k s c
      end
  | Group r1 =>
      run r1 s c
          (fun s' _ => k s' (Some (firstn (List.length s - List.length s') s)))
  | Eos =>
      match s with
      | [] => k s c
      | _ :: _ => None
      end
  end.
End Matcher.

(** [r.exec(s)] from index 0: [None] is a [null] result, [Some c] a match
    whose capture 1 is [c] ([None] when the group did not take part). *)
Fixpoint exec (r : re) (s : jsstring) : option (option jsstring) :=
  match run r s None (fun _ c => Some c) with
  | Some c => Some c
  | None =>
      match s with
      | [] => None
      | _ :: s' => exec r s'
      end
  end.

End Regex.

(** ** Canonical identifier extraction *)

(** The pattern of [extractPluginName]: a slash; capture 1, one or more
    units other than slash, colon and at-sign; optionally a colon or an
    at-sign followed by any run of [.]; the end of the input. *)
Definition plugin_name_re : Regex.re :=
  Regex.Seq (Regex.Atom (Regex.one_of [c_slash]))
    (Regex.Seq
       (Regex.Group (Regex.Plus (Regex.none_of [c_slash; c_colon; c_at])))
       (Regex.Seq
          (Regex.Opt
             (Regex.Seq (Regex.Atom (Regex.one_of [c_colon; c_at]))
                        (Regex.Star Regex.dot)))
          Regex.Eos)).

Definition extractPluginName (packageRef : jsstring) : jsstring :=
  let ref :=
    if includes (js "!") packageRef
    then nth 0 (split c_bang packageRef) []
    else packageRef in
  let mtch := Regex.exec plugin_name_re ref in
  match mtch with
  | Some (Some name) => if truthy_str name then name else packageRef
  | Some None => packageRef
  | None => packageRef
  end.

(** ** Configuration values

    The values of a parsed YAML document.  A mapping is a finite map from
    property names to values.  Numbers are restricted to integers; no
    function of the module inspects them. *)

#[warnings="-register-all"] Inductive value : Type :=
| VNull
| VBool (b : bool)
| VNum (z : Z)
| VStr (s : jsstring)
| VArr (l : list value)
| VObj (m : gmap jsstring value).

(** [Record<string, unknown>] *)
Abbreviation obj := (gmap jsstring value) (only parsing).

Definition is_mapping (v : value) : bool :=
  match v with VObj _ => true | _ => false end.

(** Modelled from the spec: [deepMerge] of the [merge-yamls] module, which is
    imported by the plugin-metadata module but is not among the sources.
    Mappings merge key by key, recursively; for a key where either side holds
    a value that is not a mapping, the override side's value wins outright.
    A key present on one side only is kept. *)
Fixpoint merge_value (base override : value) {struct override} : value :=
  match override, base with
  | VObj om, VObj bm =>
      VObj (merge (fun ov bv =>
                     match ov with
                     | Some o =>
                         Some (match bv with
                               | Some b => merge_value b o
                               | None => o
                               end)
                     | None => bv
                     end) om bm)
  | _, _ => override
  end.

Definition merge_entry (ov bv : option value) : option value :=
  match ov with
  | Some o => Some (match bv with Some b => merge_value b o | None => o end)
  | None => bv
  end.

(** Modelled from the spec: see [merge_value]. *)
Definition deepMerge (base override : obj) : obj :=
  merge merge_entry override base.

(** The value found by following a path of property names. *)
Fixpoint get_path (path : list jsstring) (v : value) : option value :=
  match path with
  | [] => Some v
  | k :: path' =>
      match v with
      | VObj m =>
          match m !! k with
          | Some v' => get_path path' v'
          | None => None
          end
      | _ => None
      end
  end.

(** ** Data model *)

(** The outcome of a promise: resolved with a value of the declared type,
    rejected with the message of an [Error], or reached through a value that
    is outside the declared types ([IllTyped], not followed further). *)
Inductive result (T : Type) : Type :=
| Ok (v : T)
| Err (message : jsstring)
| IllTyped.
Arguments Ok {T} v.
Arguments Err {T} message.
Arguments IllTyped {T}.

(** The declared interface.  [packageName] is kept as the value the
    descriptor holds: it is never checked and never read again. *)
Module PluginMetadata.
Record t : Type := mk {
  packagePath : jsstring;
  pluginConfig : obj;
  packageName : value;
  sourceFile : jsstring;
}.
End PluginMetadata.

(** The object that [parseMetadataFile] builds.  The descriptor is not
    checked, so [packagePath] and [pluginConfig] are whatever truthy values
    it holds. *)
Module RuntimeMetadata.
Record t : Type := mk {
  packagePath : value;
  pluginConfig : value;
  packageName : value;
  sourceFile : jsstring;
}.

(** A record whose artifact path is a string and whose configuration is a
    mapping is a [PluginMetadata]. *)
Definition conforms (record : t) : option PluginMetadata.t :=
  match packagePath record, pluginConfig record with
  | VStr path, VObj config =>
      Some {| PluginMetadata.packagePath := path;
              PluginMetadata.pluginConfig := config;
              PluginMetadata.packageName := packageName record;
              PluginMetadata.sourceFile := sourceFile record |}
  | _, _ => None
  end.

Definition of_metadata (metadata : PluginMetadata.t) : t :=
  {| packagePath := VStr (PluginMetadata.packagePath metadata);
     pluginConfig := VObj (PluginMetadata.pluginConfig metadata);
     packageName := PluginMetadata.packageName metadata;
     sourceFile := PluginMetadata.sourceFile metadata |}.
End RuntimeMetadata.

Module PluginEntry.
Record t : Type := mk {
  package : jsstring;
  disabled : option bool;
  pluginConfig : option obj;
  (* [key: string]: unknown *)
  others : obj;
}.
End PluginEntry.

Module DynamicPluginsConfig.
Record t : Type := mk {
  plugins : option (list PluginEntry.t);
  includes : option (list jsstring);
  (* [key: string]: unknown *)
  others : obj;
}.
End DynamicPluginsConfig.

(** ** [Map<string, PluginMetadata>]

    A JavaScript [Map] iterates in insertion order and [set] on a present key
    replaces the value in place, so the map is kept as an association list. *)
Module JsMap.
Section Ops.
Context {V : Type}.
Definition t := list (jsstring * V).

Definition empty : t := [].

Fixpoint get (k : jsstring) (m : t) : option V :=
  match m with
  | [] => None
  | (k', v) :: m' => if decide (k' = k) then Some v else get k m'
  end.

Fixpoint set (k : jsstring) (v : V) (m : t) : t :=
  match m with
  | [] => [(k, v)]
  | (k', v') :: m' =>
      if decide (k' = k) then (k, v) :: m' else (k', v') :: set k v m'
  end.

Definition size (m : t) : nat := length m.
End Ops.
Arguments t : clear implicits.
End JsMap.

(** ** The collaborators *)

Record World : Type := mkWorld {
  (* process.env *)
  env : jsstring -> option jsstring;
  (* path.resolve(p), path.join(a, b) *)
  path_resolve : jsstring -> jsstring;
  path_join : jsstring -> jsstring -> jsstring;
  (* fs.existsSync(p), fs.statSync(p).isDirectory() *)
  existsSync : jsstring -> bool;
  isDirectory : jsstring -> bool;
  (* glob(pattern) *)
  glob : jsstring -> list jsstring;
  (* fs.readFile(p, "utf8"); None when the read rejects *)
  readFile : jsstring -> option jsstring;
  (* yaml.load(content); None when it throws.  The cast to PackageCRD is
     erased: the result is any value built from scalars, lists and mappings
     (VNull also stands for undefined, the result for an empty document) *)
  yaml_load : jsstring -> option value;
}.

(** ** Gating policy *)

(** Truthiness of a value that is a string or [undefined]. *)
Definition truthy_opt_str (o : option jsstring) : bool :=
  match o with
  | Some s => truthy_str s
  | None => false
  end.

(** [a || b] where [a] is a string or [undefined]. *)
Definition or_str (a : option jsstring) (b : jsstring) : jsstring :=
  match a with
  | Some s => if truthy_str s then s else b
  | None => b
  end.

Definition shouldInjectPluginMetadata (w : World) : bool :=
  if truthy_opt_str (env w (js "RHDH_SKIP_PLUGIN_METADATA_INJECTION"))
  then false
  else
    let jobName := or_str (env w (js "JOB_NAME")) (js "") in
    if includes (js "periodic-") jobName then false else true.

(** ** Metadata directory *)

Definition DEFAULT_METADATA_PATH : jsstring := js "../metadata".

(** A parameter declared [metadataPath: string = DEFAULT_METADATA_PATH];
    [None] is an omitted argument. *)
Definition metadataPath_arg (metadataPath : option jsstring) : jsstring :=
  default DEFAULT_METADATA_PATH metadataPath.

Definition getMetadataDirectory (w : World) (metadataPath : option jsstring)
  : option jsstring :=
  let metadataPath := metadataPath_arg metadataPath in
  let resolvedPath := path_resolve w metadataPath in
  if existsSync w resolvedPath && isDirectory w resolvedPath
  then Some resolvedPath
  else None.

(** ** Descriptor parsing *)

(** Optional chaining [o?.f]: [undefined] (or [null]) short-circuits. *)
Definition chain {A B : Type} (o : option A) (f : A -> option B) : option B :=
  match o with
  | Some a => f a
  | None => None
  end.
Infix "?>" := chain (at level 50, left associativity).

(** Truthiness of a value. *)
Definition truthy (v : value) : bool :=
  match v with
  | VNull => false
  | VBool b => b
  | VNum z => negb (z =? 0)%Z
  | VStr s => truthy_str s
  | VArr _ => true
  | VObj _ => true
  end.

(** Truthiness of a value that may be [undefined]. *)
Definition truthy_opt (o : option value) : bool :=
  match o with
  | Some v => truthy v
  | None => false
  end.

(** [a || b] where [a] may be [undefined]. *)
Definition or_value (a : option value) (b : value) : value :=
  match a with
  | Some v => if truthy v then v else b
  | None => b
  end.

(** [v.name] for one of the property names the module reads ([spec],
    [dynamicArtifact], [packageName], [appConfigExamples], [content]): the
    property of a mapping; [undefined] on [null] (optional chaining) and on
    every other value, whose prototypes define none of these names. *)
Definition get_prop (name : jsstring) (v : value) : option value :=
  match v with
  | VObj m => m !! name
  | _ => None
  end.

(** [v[0]]: the first element of a list, the first code unit of a string,
    the property ["0"] of a mapping. *)
Definition get_first (v : value) : option value :=
  match v with
  | VArr l => l !! 0%nat
  | VStr (c :: _) => Some (VStr [c])
  | VObj m => m !! js "0"
  | _ => None
  end.

(** Whether the conversion of a value to a string throws, as in a template
    literal: a mapping with a [toString] entry has no callable conversion
    method left ([valueOf] is absent or returns the mapping itself), and a
    list converts its elements, [null] apart. *)
Fixpoint interpolation_throws (v : value) : bool :=
  match v with
  | VObj m => bool_decide (is_Some (m !! js "toString"))
  | VArr l => existsb interpolation_throws l
  | _ => false
  end.

(** [parsed?.spec?.dynamicArtifact] *)
Definition crd_packagePath (parsed : value) : option value :=
  Some parsed ?> get_prop (js "spec") ?> get_prop (js "dynamicArtifact").

(** [parsed?.spec?.packageName] *)
Definition crd_packageName (parsed : value) : option value :=
  Some parsed ?> get_prop (js "spec") ?> get_prop (js "packageName").

(** [parsed?.spec?.appConfigExamples?.[0]?.content] *)
Definition crd_pluginConfig (parsed : value) : option value :=
  Some parsed ?> get_prop (js "spec") ?> get_prop (js "appConfigExamples")
              ?> get_first ?> get_prop (js "content").

(** [None] is the [null] result; both the guards and the [catch] clause
    produce it.  Inside the [try] are the read, the parse and the log line
    that interpolates [packagePath]. *)
Definition parseMetadataFile (w : World) (filePath : jsstring)
  : option RuntimeMetadata.t :=
  match readFile w filePath with
  | None => None
  | Some content =>
      match yaml_load w content with
      | None => None
      | Some parsed =>
          let packagePath := crd_packagePath parsed in
          let packageName := crd_packageName parsed in
          let pluginConfig := crd_pluginConfig parsed in
          match packagePath with
          | None => None
          | Some packagePath =>
              if negb (truthy packagePath) then None
              else
                match pluginConfig with
                | None => None
                | Some pluginConfig =>
                    if negb (truthy pluginConfig) then None
                    else if interpolation_throws packagePath then None
                    else
                      Some {| RuntimeMetadata.packagePath := packagePath;
                              RuntimeMetadata.pluginConfig := pluginConfig;
                              RuntimeMetadata.packageName :=
                                or_value packageName (VStr (js ""));
                              RuntimeMetadata.sourceFile := filePath |}
                end
          end
      end
  end.

(** ** Directory scan *)

(** The message of the [TypeError] that [extractPluginName] throws when it
    is called with a truthy value that is not a string: such a value has no
    [includes] method, or, for a list, no [split] or [match] method (the
    messages are worded as V8 words them). *)
Definition type_error_message (packageRef : value) : jsstring :=
  match packageRef with
  | VArr l =>
      if existsb (fun x => match x with
                           | VStr s => bool_decide (s = js "!")
                           | _ => false
                           end) l
      then js "packageRef.split is not a function"
      else js "ref.match is not a function"
  | _ => js "packageRef.includes is not a function"
  end.

(** The state of the loop over the files: the map built so far; or a map
    that holds a record whose configuration is not a mapping, so that it is
    not a map of [PluginMetadata]; or the error that ended the loop. *)
Inductive scan_state : Type :=
| Scanning (metadataMap : JsMap.t PluginMetadata.t)
| HoldsIllTyped
| Thrown (message : jsstring).

(** One iteration of the loop over the files.  The call of
    [extractPluginName] is outside the [try] of [parseMetadataFile]. *)
Definition scan_step (w : World) (state : scan_state) (file : jsstring)
  : scan_state :=
  match state with
  | Thrown message => Thrown message
  | Scanning _ | HoldsIllTyped =>
      match parseMetadataFile w file with
      | Some metadata =>
          match RuntimeMetadata.packagePath metadata with
          | VStr packagePath =>
              let pluginName := extractPluginName packagePath in
              match state, RuntimeMetadata.conforms metadata with
              | Scanning metadataMap, Some typed =>
                  Scanning (JsMap.set pluginName typed metadataMap)
              | _, _ => HoldsIllTyped
              end
          | packagePath => Thrown (type_error_message packagePath)
          end
      | None => state
      end
  end.

Definition parseAllMetadataFiles (w : World) (metadataDir : jsstring)
  : result (JsMap.t PluginMetadata.t) :=
  let pattern := path_join w metadataDir (js "*.yaml") in
  let files := glob w pattern in
  match foldl (scan_step w) (Scanning JsMap.empty) files with
  | Scanning metadataMap => Ok metadataMap
  | HoldsIllTyped => IllTyped
  | Thrown message => Err message
  end.

(** ** Metadata injection *)

Definition inject_plugin (metadataMap : JsMap.t PluginMetadata.t)
           (plugin : PluginEntry.t) : PluginEntry.t :=
  let pluginName := extractPluginName (PluginEntry.package plugin) in
  match JsMap.get pluginName metadataMap with
  | None => plugin
  | Some metadata =>
      let mergedPluginConfig :=
        deepMerge (PluginMetadata.pluginConfig metadata)
                  (default ∅ (PluginEntry.pluginConfig plugin)) in
      {| PluginEntry.package := PluginEntry.package plugin;
         PluginEntry.disabled := PluginEntry.disabled plugin;
         PluginEntry.pluginConfig := Some mergedPluginConfig;
         PluginEntry.others := PluginEntry.others plugin |}
  end.

Definition injectMetadataConfig (dynamicPluginsConfig : DynamicPluginsConfig.t)
           (metadataMap : JsMap.t PluginMetadata.t) : DynamicPluginsConfig.t :=
  match DynamicPluginsConfig.plugins dynamicPluginsConfig with
  | None => dynamicPluginsConfig
  | Some plugins =>
      let augmentedPlugins := inject_plugin metadataMap <$> plugins in
      {| DynamicPluginsConfig.plugins := Some augmentedPlugins;
         DynamicPluginsConfig.includes :=
           DynamicPluginsConfig.includes dynamicPluginsConfig;
         DynamicPluginsConfig.others :=
           DynamicPluginsConfig.others dynamicPluginsConfig |}
  end.

(** ** Orchestration *)

Definition plugin_of_metadata (entry : jsstring * PluginMetadata.t)
  : PluginEntry.t :=
  let '(_, metadata) := entry in
  {| PluginEntry.package := PluginMetadata.packagePath metadata;
     PluginEntry.disabled := Some false;
     PluginEntry.pluginConfig := Some (PluginMetadata.pluginConfig metadata);
     PluginEntry.others := ∅ |}.

(** The object literal [{ plugins }]. *)
Definition config_of_plugins (plugins : list PluginEntry.t)
  : DynamicPluginsConfig.t :=
  {| DynamicPluginsConfig.plugins := Some plugins;
     DynamicPluginsConfig.includes := None;
     DynamicPluginsConfig.others := ∅ |}.

Definition generateDynamicPluginsConfigFromMetadata (w : World)
           (metadataPath : option jsstring) : result DynamicPluginsConfig.t :=
  let metadataPath := metadataPath_arg metadataPath in
  if negb (shouldInjectPluginMetadata w) then Ok (config_of_plugins [])
  else
    match getMetadataDirectory w (Some metadataPath) with
    | None =>
        Err (js "[PluginMetadata] Cannot generate dynamic-plugins config: metadata directory not found at: "
               ++ path_resolve w metadataPath)
    | Some metadataDir =>
        match parseAllMetadataFiles w metadataDir with
        | Err message => Err message
        | IllTyped => IllTyped
        | Ok metadataMap =>
            if (JsMap.size metadataMap =? 0)%nat then
              Err (js "[PluginMetadata] Cannot generate dynamic-plugins config: no valid metadata files found in "
                     ++ metadataDir)
            else Ok (config_of_plugins (plugin_of_metadata <$> metadataMap))
        end
    end.

Definition loadAndInjectPluginMetadata (w : World)
           (dynamicPluginsConfig : DynamicPluginsConfig.t)
           (metadataPath : option jsstring) : result DynamicPluginsConfig.t :=
  let metadataPath := metadataPath_arg metadataPath in
  if negb (shouldInjectPluginMetadata w) then Ok dynamicPluginsConfig
  else
    match getMetadataDirectory w (Some metadataPath) with
    | None =>
        Err (js "[PluginMetadata] PR build requires metadata directory but not found at: "
               ++ path_resolve w metadataPath)
    | Some metadataDir =>
        match parseAllMetadataFiles w metadataDir with
        | Err message => Err message
        | IllTyped => IllTyped
        | Ok metadataMap =>
            if (JsMap.size metadataMap =? 0)%nat then
              Err (js "[PluginMetadata] PR build requires plugin metadata but no valid metadata files found in "
                     ++ metadataDir)
            else Ok (injectMetadataConfig dynamicPluginsConfig metadataMap)
        end
    end.

(** ** A direct reading of the pattern *)

Fixpoint take_while (p : char -> bool) (s : jsstring) : jsstring :=
  match s with
  | x :: s' => if p x then x :: take_while p s' else []
  | [] => []
  end.

Fixpoint drop_while (p : char -> bool) (s : jsstring) : jsstring :=
  match s with
  | x :: s' => if p x then drop_while p s' else s
  | [] => []
  end.

Definition name_unit : char -> bool :=
  Regex.none_of [c_slash; c_colon; c_at].

Definition tag_start : char -> bool := Regex.one_of [c_colon; c_at].

(** The match that starts at the head of [s], if there is one: a slash, the
    longest non-empty run of name units, and then either the end of the
    input or a colon or at-sign followed by no line terminator. *)
Definition match_at (s : jsstring) : option jsstring :=
  match s with
  | x :: s' =>
      if Regex.one_of [c_slash] x then
        match take_while name_unit s' with
        | [] => None
        | name =>
            match drop_while name_unit s' with
            | [] => Some name
            | y :: t =>
                if tag_start y && forallb Regex.dot t then Some name else None
            end
        end
      else None
  | [] => None
  end.

Fixpoint first_match (s : jsstring) : option jsstring :=
  match match_at s with
  | Some name => Some name
  | None =>
      match s with
      | [] => None
      | _ :: s' => first_match s'
      end
  end.


(** The reference handed to the pattern. *)
Definition alias_stripped (packageRef : jsstring) : jsstring :=
  if includes (js "!") packageRef
  then nth 0 (split c_bang packageRef) []
  else packageRef.


(** ** The specification's wording of the identifier

    "The last slash-delimited segment with any trailing :tag or @digest
    stripped". *)
Definition last_segment (r : jsstring) : jsstring :=
  List.last (split c_slash r) [].

Definition strip_tag (segment : jsstring) : jsstring :=
  take_while (Regex.none_of [c_colon; c_at]) segment.

Definition spec_plugin_name (r : jsstring) : jsstring :=
  strip_tag (last_segment r).


(** ** The record a key ends up with

    The record of the last file, in processing order, whose identifier is
    [k]. *)
Definition plugin_key (metadata : PluginMetadata.t) : jsstring :=
  extractPluginName (PluginMetadata.packagePath metadata).

(** The [PluginMetadata] a file yields, if it yields one. *)
Definition conforming_record (w : World) (file : jsstring)
  : option PluginMetadata.t :=
  match parseMetadataFile w file with
  | Some record => RuntimeMetadata.conforms record
  | None => None
  end.

(** The file yields [null] or a [PluginMetadata]. *)
Definition well_typed_file (w : World) (file : jsstring) : Prop :=
  parseMetadataFile w file = None
  \/ exists metadata,
      parseMetadataFile w file
      = Some (RuntimeMetadata.of_metadata metadata).

(** The loop step for a file that yields [null] or a [PluginMetadata]. *)
Definition index_step (w : World) (metadataMap : JsMap.t PluginMetadata.t)
           (file : jsstring) : JsMap.t PluginMetadata.t :=
  match conforming_record w file with
  | Some metadata => JsMap.set (plugin_key metadata) metadata metadataMap
  | None => metadataMap
  end.

Fixpoint last_record (w : World) (k : jsstring) (files : list jsstring)
  : option PluginMetadata.t :=
  match files with
  | [] => None
  | file :: files' =>
      match last_record w k files' with
      | Some metadata => Some metadata
      | None =>
          match conforming_record w file with
          | Some metadata =>
              if decide (plugin_key metadata = k) then Some metadata else None
          | None => None
          end
      end
  end.

(** The files of a metadata directory, in listing order. *)
Definition metadata_files (w : World) (metadataDir : jsstring) : list jsstring :=
  glob w (path_join w metadataDir (js "*.yaml")).

(** The document a caller receives, if any. *)
Definition returned_document (r : result DynamicPluginsConfig.t)
  : option DynamicPluginsConfig.t :=
  match r with
  | Ok document => Some document
  | Err _ | IllTyped => None
  end.

(** ** Concrete worlds

    A world with one metadata directory, [/repo/metadata], whose [*.yaml]
    files are given by a table; the content of a file is identified with its
    path. *)
Inductive file_state : Type :=
| Unreadable
| Malformed
| Parsed (document : value).

Definition metadata_dir : jsstring := js "/repo/metadata".

Definition test_world (variables : list (jsstring * jsstring))
           (directory_exists : bool)
           (files : list (jsstring * file_state)) : World :=
  {| env := fun name => JsMap.get name variables;
     path_resolve := fun p =>
       if bool_decide (p = js "../metadata") then metadata_dir
       else if starts_with (js "/") p then p
       else js "/repo/e2e-tests/" ++ p;
     path_join := fun a b => a ++ c_slash :: b;
     existsSync := fun p =>
       directory_exists && bool_decide (p = metadata_dir);
     isDirectory := fun p =>
       directory_exists && bool_decide (p = metadata_dir);
     glob := fun pattern =>
       if directory_exists && bool_decide (pattern = js "/repo/metadata/*.yaml")
       then files.*1 else [];
     readFile := fun p =>
       match JsMap.get p files with
       | Some (Malformed | Parsed _) => Some p
       | Some Unreadable | None => None
       end;
     yaml_load := fun content =>
       match JsMap.get content files with
       | Some (Parsed document) => Some document
       | _ => None
       end |}.

(** The document [{spec: {dynamicArtifact, appConfigExamples}}]; an absent
    property is [None]. *)
Definition descriptor (artifact : option value)
           (examples : option (list value)) : file_state :=
  Parsed (VObj {[ js "spec" :=
                    VObj (from_option
                            (fun a => {[ js "dynamicArtifact" := a ]}) ∅ artifact
                          ∪ from_option
                              (fun e => {[ js "appConfigExamples" := VArr e ]})
                              ∅ examples) ]}).

(** The example [{content: config}]. *)
Definition example_of (config : obj) : value :=
  VObj {[ js "content" := VObj config ]}.

Definition radar_config : obj :=
  {[ js "techRadar" := VObj {[ js "url" := VStr (js "http://radar");
                               js "depth" := VNum 2 ]} ]}.

Definition radar_v2_config : obj :=
  {[ js "techRadar" := VObj {[ js "url" := VStr (js "http://radar-v2") ]} ]}.

(** Two descriptors for the same plugin, an unreadable file, a malformed
    file and a descriptor without artifact path. *)
Definition sample_files : list (jsstring * file_state) :=
  [ (js "/repo/metadata/a.yaml",
     descriptor (Some (VStr (js "./dynamic-plugins/dist/tech-radar")))
                (Some [example_of radar_config]));
    (js "/repo/metadata/b.yaml", Unreadable);
    (js "/repo/metadata/c.yaml", Malformed);
    (js "/repo/metadata/d.yaml",
     descriptor None (Some [example_of radar_config]));
    (js "/repo/metadata/e.yaml",
     descriptor (Some (VStr (js "oci://quay.io/rhdh/tech-radar:1.2")))
                (Some [example_of radar_v2_config])) ].

Definition pr_world : World := test_world [] true sample_files.

Definition periodic_world : World :=
  test_world [(js "JOB_NAME", js "periodic-nightly-1")] false [].

Definition opt_out_world : World :=
  test_world [(js "RHDH_SKIP_PLUGIN_METADATA_INJECTION", js "true")] false [].

(** The opt-out variable is set, to the empty string. *)
Definition empty_opt_out_world : World :=
  test_world [(js "RHDH_SKIP_PLUGIN_METADATA_INJECTION", js "")] false [].

Definition no_directory_world : World := test_world [] false [].

(** A directory whose only descriptor has an empty content mapping. *)
Definition empty_content_world : World :=
  test_world [] true
    [ (js "/repo/metadata/p.yaml",
       descriptor (Some (VStr (js "./dynamic-plugins/dist/p")))
                  (Some [example_of ∅])) ].

(** A directory without any valid descriptor. *)
Definition no_records_world : World :=
  test_world [] true
    [ (js "/repo/metadata/b.yaml", Unreadable);
      (js "/repo/metadata/c.yaml", Malformed) ].

Definition user_entry : PluginEntry.t :=
  {| PluginEntry.package := js "oci://quay.io/rhdh/tech-radar@sha256:abc!tech-radar";
     PluginEntry.disabled := Some false;
     PluginEntry.pluginConfig :=
       Some {[ js "techRadar" := VObj {[ js "depth" := VNum 5 ]} ]};
     PluginEntry.others := {[ js "integrity" := VStr (js "sha512") ]} |}.

Definition other_entry : PluginEntry.t :=
  {| PluginEntry.package := js "./dynamic-plugins/dist/unknown";
     PluginEntry.disabled := None;
     PluginEntry.pluginConfig := None;
     PluginEntry.others := ∅ |}.

Definition user_config : DynamicPluginsConfig.t :=
  {| DynamicPluginsConfig.plugins := Some [user_entry; other_entry];
     DynamicPluginsConfig.includes := Some [js "dynamic-plugins.default.yaml"];
     DynamicPluginsConfig.others := ∅ |}.

Definition no_plugins_config : DynamicPluginsConfig.t :=
  {| DynamicPluginsConfig.plugins := None;
     DynamicPluginsConfig.includes := Some [js "dynamic-plugins.default.yaml"];
     DynamicPluginsConfig.others := ∅ |}.

(** The record of [e.yaml] in [sample_files]. *)
Definition radar_v2_record : PluginMetadata.t :=
  {| PluginMetadata.packagePath := js "oci://quay.io/rhdh/tech-radar:1.2";
     PluginMetadata.pluginConfig := radar_v2_config;
     PluginMetadata.packageName := VStr (js "");
     PluginMetadata.sourceFile := js "/repo/metadata/e.yaml" |}.


(** ** The outcome of a scan, file by file *)

(** The [PluginMetadata] records of the files that yield one, in
    processing order. *)
Fixpoint yielded_records (w : World) (files : list jsstring)
  : list PluginMetadata.t :=
  match files with
  | [] => []
  | file :: files' =>
      match conforming_record w file with
      | Some metadata => metadata :: yielded_records w files'
      | None => yielded_records w files'
      end
  end.

(** A directory with descriptors of two different plugins, one given by a
    local path and one by a registry reference, and a file that is skipped. *)
Definition notifications_config : obj :=
  {[ js "notifications" := VObj {[ js "enabled" := VBool true ]} ]}.

Definition two_plugin_files : list (jsstring * file_state) :=
  [ (js "/repo/metadata/radar.yaml",
     descriptor (Some (VStr (js "./dynamic-plugins/dist/tech-radar")))
                (Some [example_of radar_config]));
    (js "/repo/metadata/broken.yaml", Malformed);
    (js "/repo/metadata/notifications.yaml",
     descriptor (Some (VStr (js "oci://quay.io/rhdh/notifications:1.0")))
                (Some [example_of notifications_config])) ].

Definition two_plugin_world : World := test_world [] true two_plugin_files.

Definition radar_record : PluginMetadata.t :=
  {| PluginMetadata.packagePath := js "./dynamic-plugins/dist/tech-radar";
     PluginMetadata.pluginConfig := radar_config;
     PluginMetadata.packageName := VStr (js "");
     PluginMetadata.sourceFile := js "/repo/metadata/radar.yaml" |}.

Definition notifications_record : PluginMetadata.t :=
  {| PluginMetadata.packagePath := js "oci://quay.io/rhdh/notifications:1.0";
     PluginMetadata.pluginConfig := notifications_config;
     PluginMetadata.packageName := VStr (js "");
     PluginMetadata.sourceFile := js "/repo/metadata/notifications.yaml" |}.

(** A world whose metadata path is a regular file, not a directory. *)
Definition file_not_directory_world : World :=
  {| env := fun _ => None;
     path_resolve := fun p => p;
     path_join := fun a b => a ++ c_slash :: b;
     existsSync := fun p => bool_decide (p = metadata_dir);
     isDirectory := fun _ => false;
     glob := fun _ => [];
     readFile := fun _ => None;
     yaml_load := fun _ => None |}.

(** A directory whose only descriptor has the content [false]. *)
Definition falsy_content_world : World :=
  test_world [] true
    [ (js "/repo/metadata/p.yaml",
       descriptor (Some (VStr (js "./dynamic-plugins/dist/p")))
                  (Some [VObj {[ js "content" := VBool false ]}])) ].

(** The index of the sample directory. *)
Definition sample_index : JsMap.t PluginMetadata.t :=
  [(js "tech-radar", radar_v2_record)].

(** A directory with a valid descriptor and a descriptor whose
    [dynamicArtifact] is the number 123. *)
Definition ill_typed_files : list (jsstring * file_state) :=
  [ (js "/repo/metadata/radar.yaml",
     descriptor (Some (VStr (js "./dynamic-plugins/dist/tech-radar")))
                (Some [example_of radar_config]));
    (js "/repo/metadata/wrong.yaml",
     descriptor (Some (VNum 123)) (Some [example_of radar_config])) ].

Definition ill_typed_world : World := test_world [] true ill_typed_files.

(** * Properties *)

(** ** Canonical identifier extraction: examples *)

Example extract_local :
  extractPluginName (js "./dynamic-plugins/dist/backstage-community-plugin-tech-radar")
  = js "backstage-community-plugin-tech-radar".
Proof. vm_compute. reflexivity. Qed.

Example extract_oci_tag :
  extractPluginName (js "oci://quay.io/rhdh/my-plugin:1.0.0") = js "my-plugin".
Proof. vm_compute. reflexivity. Qed.

Example extract_oci_digest_alias :
  extractPluginName (js "oci://quay.io/rhdh/plugin@sha256:abc!my-alias")
  = js "plugin".
Proof. vm_compute. reflexivity. Qed.

Example extract_registry_path :
  extractPluginName (js "ghcr.io/org/repo/my-plugin:tag") = js "my-plugin".
Proof. vm_compute. reflexivity. Qed.

(** A registry with a port: the first segment followed by a colon is
    captured, not the last one. *)
Example extract_port :
  extractPluginName (js "oci://localhost:5000/rhdh/plugin:1.0") = js "localhost".
Proof. vm_compute. reflexivity. Qed.

Example extract_noslash_alias :
  extractPluginName (js "plugin!alias") = js "plugin!alias".
Proof. vm_compute. reflexivity. Qed.

Example extract_trailing_slash :
  extractPluginName (js "a/b:c/") = js "b".
Proof. vm_compute. reflexivity. Qed.


(** ** The pattern, read directly *)


Section RegexFacts.
Context {A : Type}.
Implicit Types (k : @Regex.cont A) (p : char -> bool) (s : jsstring).

(** A greedy star gives back nothing when the continuation rejects every
    input that begins with a unit of the class. *)
Lemma star_longest p s c k :
  (forall x t c', p x = true -> k (x :: t) c' = None) ->
  Regex.star p s c k = k (drop_while p s) c.
Proof.
  intros Hk. induction s as [|x s IH]; simpl; [done|].
  destruct (p x) eqn:Hp; [|done].
  rewrite IH. destruct (k (drop_while p s) c) eqn:E; [done|].
  destruct s as [|y s]; simpl in *.
  - by apply Hk.
  - by apply Hk.
Qed.

(** A greedy star followed by the end of the input. *)
Lemma star_to_end p s c (a : option jsstring -> option A) :
  Regex.star p s c
    (fun s' c' => match s' with [] => a c' | _ :: _ => None end)
  = if forallb p s then a c else None.
Proof.
  induction s as [|x s IH]; simpl; [done|].
  destruct (p x); simpl; [|done].
  rewrite IH. by destruct (forallb p s), (a c).
Qed.
End RegexFacts.

Lemma take_drop_while p (s : jsstring) :
  take_while p s ++ drop_while p s = s.
Proof. induction s as [|x s IH]; simpl; [done|]. destruct (p x); simpl; by f_equal. Qed.

Lemma firstn_take_while p (s : jsstring) :
  firstn (length s - length (drop_while p s)) s = take_while p s.
Proof.
  rewrite <- (take_drop_while p s) at 1 3.
  rewrite length_app.
  replace (_ + _ - _) with (length (take_while p s)) by lia.
  by rewrite take_app_length.
Qed.

Lemma length_drop_while p (s : jsstring) :
  length (drop_while p s) <= length s.
Proof. induction s as [|x s IH]; simpl; [done|]. destruct (p x); simpl; lia. Qed.

Lemma firstn_take_while_cons p y (s : jsstring) :
  firstn (length (y :: s) - length (drop_while p s)) (y :: s)
  = y :: take_while p s.
Proof.
  pose proof (length_drop_while p s).
  replace (length (y :: s) - length (drop_while p s))
    with (S (length s - length (drop_while p s))) by (simpl; lia).
  simpl. by rewrite firstn_take_while.
Qed.

Lemma name_unit_not_tag x : name_unit x = true -> tag_start x = false.
Proof.
  unfold name_unit, tag_start, Regex.none_of, Regex.one_of. simpl.
  destruct (x =? c_slash)%N, (x =? c_colon)%N, (x =? c_at)%N; simpl; congruence.
Qed.

Lemma run_plugin_name_re (s : jsstring) :
  Regex.run plugin_name_re s None (fun _ c => Some c) = Some <$> match_at s.
Proof.
  destruct s as [|x s]; [done|].
  cbn [plugin_name_re Regex.run match_at].
  destruct (Regex.one_of [c_slash] x); [|done].
  destruct s as [|y s]; [done|].
  change (take_while name_unit (y :: s)) with
    (if name_unit y then y :: take_while name_unit s else []).
  change (drop_while name_unit (y :: s)) with
    (if name_unit y then drop_while name_unit s else y :: s).
  fold name_unit. fold tag_start.
  destruct (name_unit y) eqn:Hy; [|done].
  rewrite star_longest.
  - rewrite firstn_take_while_cons.
    destruct (drop_while name_unit s) as [|z t]; [done|].
    destruct (tag_start z); simpl; [|done].
    rewrite star_to_end. by destruct (forallb Regex.dot t).
  - intros z t c' Hz. by rewrite (name_unit_not_tag _ Hz).
Qed.

Lemma exec_plugin_name_re (s : jsstring) :
  Regex.exec plugin_name_re s = Some <$> first_match s.
Proof.
  induction s as [|x s IH].
  - done.
  - cbn [Regex.exec first_match]. rewrite run_plugin_name_re.
    destruct (match_at (x :: s)); simpl; [done|]. exact IH.
Qed.

(** ** Facts about [extractPluginName] *)

Lemma one_of_spec cs x : Regex.one_of cs x = true <-> x ∈ cs.
Proof.
  unfold Regex.one_of. rewrite existsb_exists. split.
  - intros (y & Hy & E). apply N.eqb_eq in E. subst. by apply list_elem_of_In.
  - intros H. exists x. split; [by apply list_elem_of_In | apply N.eqb_refl].
Qed.

Lemma one_of_false cs x : Regex.one_of cs x = false <-> x ∉ cs.
Proof.
  rewrite <- one_of_spec. by destruct (Regex.one_of cs x).
Qed.

Lemma name_unit_spec x :
  name_unit x = true <-> x <> c_slash /\ x <> c_colon /\ x <> c_at.
Proof.
  unfold name_unit, Regex.none_of. rewrite negb_true_iff, one_of_false.
  rewrite !not_elem_of_cons. pose proof (not_elem_of_nil x). tauto.
Qed.

Lemma includes_unit c (r : jsstring) : includes [c] r = true <-> c ∈ r.
Proof.
  induction r as [|x r IH]; cbn [includes starts_with].
  - split; [done | by intros ?%elem_of_nil].
  - rewrite elem_of_cons, orb_true_iff, andb_true_r, N.eqb_eq, IH.
    split; (intros [?|?]; [left|right]; done).
Qed.

Lemma includes_bang (r : jsstring) : includes (js "!") r = true <-> c_bang ∈ r.
Proof. apply includes_unit. Qed.

Lemma split_first_app sep (p a : jsstring) :
  sep ∉ p -> nth 0 (split sep (p ++ sep :: a)) [] = p.
Proof.
  induction p as [|x p IH]; intros Hp; simpl.
  - by rewrite N.eqb_refl.
  - apply not_elem_of_cons in Hp as [Hx Hp].
    destruct (N.eqb_spec x sep) as [->|_]; [done|].
    specialize (IH Hp).
    destruct (split sep (p ++ sep :: a)) as [|h t]; simpl in *; by subst.
Qed.

Lemma split_first_elem sep (s : jsstring) x :
  x ∈ nth 0 (split sep s) [] -> x ∈ s.
Proof.
  induction s as [|y s IH]; simpl; [done|].
  destruct (y =? sep)%N; simpl; [by intros ?%elem_of_nil|].
  destruct (split sep s) as [|h t]; simpl in *.
  - rewrite !elem_of_cons. intros [?|?%elem_of_nil]; [by left | done].
  - rewrite !elem_of_cons. intros [?|?]; [by left | right; auto].
Qed.

Lemma alias_stripped_no_bang (r : jsstring) : c_bang ∉ r -> alias_stripped r = r.
Proof.
  intros H. unfold alias_stripped.
  destruct (includes (js "!") r) eqn:E; [|done].
  by apply includes_bang in E.
Qed.

Lemma alias_stripped_elem (r : jsstring) x : x ∈ alias_stripped r -> x ∈ r.
Proof.
  unfold alias_stripped. destruct (includes (js "!") r); [|done].
  apply split_first_elem.
Qed.

Lemma alias_stripped_bang (p a : jsstring) :
  c_bang ∉ p -> alias_stripped (p ++ c_bang :: a) = p.
Proof.
  intros H. unfold alias_stripped.
  destruct (includes (js "!") (p ++ c_bang :: a)) eqn:E.
  - by apply split_first_app.
  - assert (c_bang ∈ p ++ c_bang :: a) as Hin by set_solver.
    apply includes_bang in Hin. congruence.
Qed.

Lemma match_at_nonempty s name : match_at s = Some name -> name <> [].
Proof.
  destruct s as [|x s]; cbn [match_at]; [done|].
  destruct (Regex.one_of [c_slash] x); [|done].
  destruct (take_while name_unit s) as [|y n]; [done|].
  destruct (drop_while name_unit s) as [|z t]; [intros [= <-]; done|].
  destruct (tag_start z && forallb Regex.dot t); [intros [= <-]; done | done].
Qed.

Lemma length_take_while p (s : jsstring) :
  length (take_while p s) <= length s.
Proof. induction s as [|x s IH]; simpl; [done|]. destruct (p x); simpl; lia. Qed.

Lemma match_at_length s name : match_at s = Some name -> length name < length s.
Proof.
  destruct s as [|x s]; cbn [match_at]; [done|].
  destruct (Regex.one_of [c_slash] x); [|done].
  pose proof (length_take_while name_unit s).
  destruct (take_while name_unit s) as [|y n]; [done|].
  destruct (drop_while name_unit s) as [|z t]; [intros [= <-]; simpl in *; lia|].
  destruct (tag_start z && forallb Regex.dot t); [intros [= <-]; simpl in *; lia | done].
Qed.

Lemma take_while_subseteq p (s : jsstring) x : x ∈ take_while p s -> x ∈ s.
Proof.
  induction s as [|y s IH]; simpl; [done|].
  destruct (p y); [|by intros ?%elem_of_nil].
  rewrite !elem_of_cons. intros [?|?]; [by left | right; auto].
Qed.

Lemma match_at_elem s name x : match_at s = Some name -> x ∈ name -> x ∈ s.
Proof.
  destruct s as [|y s]; cbn [match_at]; [done|].
  destruct (Regex.one_of [c_slash] y); [|done].
  intros H Hx. right. apply (take_while_subseteq name_unit).
  destruct (take_while name_unit s) as [|z n]; [done|].
  destruct (drop_while name_unit s) as [|u t]; [by injection H as <-|].
  destruct (tag_start u && forallb Regex.dot t); [by injection H as <- | done].
Qed.

Lemma first_match_nonempty s name : first_match s = Some name -> name <> [].
Proof.
  induction s as [|x s IH]; cbn [first_match].
  - done.
  - destruct (match_at (x :: s)) eqn:E.
    + intros [= <-]. by eapply match_at_nonempty.
    + exact IH.
Qed.

Lemma first_match_length s name :
  first_match s = Some name -> length name < length s.
Proof.
  induction s as [|x s IH]; cbn [first_match].
  - done.
  - destruct (match_at (x :: s)) eqn:E.
    + intros [= <-]. by apply match_at_length in E.
    + intros H%IH. simpl. lia.
Qed.

Lemma first_match_elem s name x :
  first_match s = Some name -> x ∈ name -> x ∈ s.
Proof.
  induction s as [|y s IH]; cbn [first_match].
  - done.
  - destruct (match_at (y :: s)) eqn:E.
    + intros [= <-]. by eapply match_at_elem.
    + intros H Hx. right. auto.
Qed.

(** [extractPluginName] in terms of the direct reading of the pattern. *)
Lemma extractPluginName_first_match (r : jsstring) :
  extractPluginName r = default r (first_match (alias_stripped r)).
Proof.
  unfold extractPluginName. fold (alias_stripped r).
  cbv zeta. rewrite exec_plugin_name_re.
  destruct (first_match (alias_stripped r)) as [name|] eqn:E; simpl; [|done].
  apply first_match_nonempty in E. by destruct name.
Qed.

Lemma match_at_not_slash x (s : jsstring) : x <> c_slash -> match_at (x :: s) = None.
Proof.
  intros H. cbn [match_at]. destruct (Regex.one_of [c_slash] x) eqn:E; [|done].
  apply one_of_spec, elem_of_cons in E as [?|?%elem_of_nil]; done.
Qed.

Lemma first_match_skip (a rest : jsstring) :
  c_slash ∉ a -> first_match (a ++ rest) = first_match rest.
Proof.
  induction a as [|x a IH]; intros Ha; [done|].
  apply not_elem_of_cons in Ha as [Hx Ha].
  change ((x :: a) ++ rest) with (x :: (a ++ rest)).
  cbn [first_match]. rewrite match_at_not_slash by done. by apply IH.
Qed.

Lemma first_match_no_slash (s : jsstring) : c_slash ∉ s -> first_match s = None.
Proof.
  intros H. rewrite <- (app_nil_r s). by rewrite first_match_skip.
Qed.

Lemma take_while_app_stop p (n s : jsstring) :
  Forall (fun x => p x = true) n ->
  (s = [] \/ exists y t, s = y :: t /\ p y = false) ->
  take_while p (n ++ s) = n /\ drop_while p (n ++ s) = s.
Proof.
  intros Hn Hs. induction Hn as [|x n Hx Hn IH]; simpl.
  - destruct Hs as [->|(y & t & -> & Hy)]; simpl; [done|]. by rewrite Hy.
  - rewrite Hx. destruct IH as [-> ->]. done.
Qed.

(** Inside a stretch without colon and at-sign, the run of name units that
    follows a slash stops at a slash. *)
Lemma drop_while_name_stops (b rest : jsstring) :
  c_colon ∉ b -> c_at ∉ b ->
  exists y t, drop_while name_unit (b ++ c_slash :: rest) = y :: t
              /\ tag_start y = false.
Proof.
  induction b as [|x b IH]; intros Hc Ha.
  - exists c_slash, rest. done.
  - apply not_elem_of_cons in Hc as [Hxc Hc].
    apply not_elem_of_cons in Ha as [Hxa Ha].
    simpl. destruct (name_unit x) eqn:Hx; [by apply IH|].
    exists x, (b ++ c_slash :: rest). split; [done|].
    apply one_of_false. rewrite !not_elem_of_cons.
    pose proof (not_elem_of_nil x). done.
Qed.

Lemma match_at_stretch x (b rest : jsstring) :
  c_colon ∉ b -> c_at ∉ b -> match_at (x :: b ++ c_slash :: rest) = None.
Proof.
  intros Hc Ha. cbn [match_at].
  destruct (Regex.one_of [c_slash] x); [|done].
  destruct (drop_while_name_stops b rest Hc Ha) as (y & t & -> & ->).
  by destruct (take_while name_unit _).
Qed.

Lemma first_match_stretch (b rest : jsstring) :
  c_colon ∉ b -> c_at ∉ b ->
  first_match (b ++ c_slash :: rest) = first_match (c_slash :: rest).
Proof.
  induction b as [|x b IH]; intros Hc Ha; [done|].
  apply not_elem_of_cons in Hc as [_ Hc].
  apply not_elem_of_cons in Ha as [_ Ha].
  change ((x :: b) ++ c_slash :: rest) with (x :: b ++ c_slash :: rest).
  cbn [first_match]. rewrite match_at_stretch by done. by apply IH.
Qed.

Lemma match_at_segment (name suffix : jsstring) :
  name <> [] ->
  Forall (fun x => name_unit x = true) name ->
  (suffix = [] \/
   exists d t, suffix = d :: t /\ tag_start d = true /\ forallb Regex.dot t = true) ->
  match_at (c_slash :: name ++ suffix) = Some name.
Proof.
  intros Hne Hn Hs. cbn [match_at].
  replace (Regex.one_of [c_slash] c_slash) with true by done.
  destruct (take_while_app_stop name_unit name suffix) as [-> ->];
    [done| |].
  - destruct Hs as [->|(d & t & -> & Hd & _)]; [by left|].
    right. exists d, t. split; [done|].
    destruct (name_unit d) eqn:E; [|done].
    apply name_unit_not_tag in E. congruence.
  - destruct name as [|y n]; [done|].
    destruct Hs as [->|(d & t & -> & -> & ->)]; done.
Qed.

(** A string that ends in a slash and holds neither colon nor at-sign has no
    match. *)
Lemma first_match_trailing_slash (s : jsstring) :
  c_colon ∉ s -> c_at ∉ s -> first_match (s ++ [c_slash]) = None.
Proof.
  intros Hc Ha. rewrite first_match_stretch by done. done.
Qed.

Lemma split_nonempty sep (s : jsstring) : split sep s <> [].
Proof.
  destruct s as [|x s]; simpl; [done|].
  destruct (x =? sep)%N; [done|]. by destruct (split sep s).
Qed.

Lemma split_no_sep sep (s : jsstring) : sep ∉ s -> split sep s = [s].
Proof.
  induction s as [|x s IH]; intros H; simpl; [done|].
  apply not_elem_of_cons in H as [Hx Hs].
  destruct (N.eqb_spec x sep); [done|]. by rewrite IH.
Qed.

Lemma last_cons_nonempty {T} (x : T) (l : list T) d :
  l <> [] -> List.last (x :: l) d = List.last l d.
Proof. by destruct l. Qed.

Lemma split_app_sep sep (pre seg : jsstring) :
  sep ∉ seg ->
  exists h t, split sep (pre ++ sep :: seg) = h :: t
              /\ t <> [] /\ List.last t [] = seg.
Proof.
  intros Hseg. induction pre as [|x pre IH]; simpl.
  - rewrite N.eqb_refl, split_no_sep by done. by exists [], [seg].
  - destruct IH as (h & t & -> & Ht & Hl).
    destruct (x =? sep)%N.
    + exists [], (h :: t). split_and!; [done..|].
      by rewrite last_cons_nonempty.
    + by exists (x :: h), t.
Qed.

Lemma last_split_app sep (pre seg : jsstring) :
  sep ∉ seg -> List.last (split sep (pre ++ sep :: seg)) [] = seg.
Proof.
  intros Hseg.
  destruct (split_app_sep sep pre seg Hseg) as (h & t & -> & Ht & Hl).
  by rewrite last_cons_nonempty.
Qed.

Example spec_plugin_name_tag :
  spec_plugin_name (js "plugin:1.0") = js "plugin".
Proof. vm_compute. reflexivity. Qed.

(** ** Canonical identifier extraction: the claims *)

(** C4 (as stated) fails: when the part before the [!] has no match, the
    fallback returns the original reference, alias included, so the result
    depends on the alias. *)
Lemma C4_counterexample :
  extractPluginName (js "plugin!alias") = js "plugin!alias"
  /\ c_bang ∈ extractPluginName (js "plugin!alias")
  /\ extractPluginName (js "plugin!alias") <> extractPluginName (js "plugin!other").
Proof.
  split_and!.
  - vm_compute. reflexivity.
  - compute_done.
  - vm_compute. discriminate.
Qed.

(** C4 (amended): for a reference [p!a] whose part [p] before the first [!]
    is one that extraction does not return unchanged (the pattern matches
    it), the result is the identifier of [p] alone and holds no [!]; when
    extraction returns [p] unchanged (no match), the original reference,
    alias included, is returned. *)
Theorem C4_alias_discarded_when_prefix_matches (p a : jsstring) :
  c_bang ∉ p ->
  (extractPluginName p <> p ->
   extractPluginName (p ++ c_bang :: a) = extractPluginName p
   /\ c_bang ∉ extractPluginName (p ++ c_bang :: a))
  /\ (extractPluginName p = p ->
      extractPluginName (p ++ c_bang :: a) = p ++ c_bang :: a).
Proof.
  intros Hp.
  rewrite !extractPluginName_first_match.
  rewrite alias_stripped_bang, alias_stripped_no_bang by done.
  destruct (first_match p) as [name|] eqn:E; simpl.
  - split.
    + intros _. split; [done|].
      intros Hin. apply Hp. by eapply first_match_elem.
    + intros ->. apply first_match_length in E. lia.
  - split; [done|]. done.
Qed.

Lemma C4_witness :
  extractPluginName (js "oci://quay.io/rhdh/plugin@sha256:abc!my-alias")
  = extractPluginName (js "oci://quay.io/rhdh/plugin@sha256:abc")
  /\ extractPluginName (js "plugin!alias") = js "plugin!alias".
Proof.
  split.
  - apply (C4_alias_discarded_when_prefix_matches
             (js "oci://quay.io/rhdh/plugin@sha256:abc") (js "my-alias")).
    + compute_done.
    + vm_compute. discriminate.
  - apply (C4_alias_discarded_when_prefix_matches (js "plugin") (js "alias")).
    + compute_done.
    + vm_compute. reflexivity.
Defined.

(** C5 (as stated) fails: when the last segment is empty, or when the
    reference has no slash, the fallback returns the reference unchanged
    instead of the stripped last segment. *)
Lemma C5_counterexample :
  ((c_bang ∉ js "./dynamic-plugins/dist/")
   /\ extractPluginName (js "./dynamic-plugins/dist/") = js "./dynamic-plugins/dist/"
   /\ spec_plugin_name (js "./dynamic-plugins/dist/") = js "")
  /\ ((c_bang ∉ js "plugin:1.0")
      /\ extractPluginName (js "plugin:1.0") = js "plugin:1.0"
      /\ spec_plugin_name (js "plugin:1.0") = js "plugin").
Proof.
  split_and!; try (vm_compute; reflexivity); compute_done.
Qed.

(** C5 (amended): let [r] have no [!] and contain a slash, write
    [r = a ++ b ++ "/" ++ name ++ suffix] where [a] is the part before the
    first slash, [b], the part up to the final slash, holds neither colon nor
    at-sign, [name] is a non-empty run of units other than slash, colon and
    at-sign, and [suffix] is empty or is a colon or at-sign followed by units
    that are neither slashes nor line terminators.  Then
    [extractPluginName r] is [name], the last slash-delimited segment with
    its tag or digest stripped. *)
Theorem C5_last_segment_name (a b name suffix : jsstring) :
  c_bang ∉ a ++ b ++ c_slash :: name ++ suffix ->
  c_slash ∉ a ->
  c_colon ∉ b -> c_at ∉ b ->
  name <> [] ->
  Forall (fun x => x <> c_slash /\ x <> c_colon /\ x <> c_at) name ->
  (suffix = [] \/
   exists d t, suffix = d :: t /\ (d = c_colon \/ d = c_at)
               /\ (c_slash ∉ t)
               /\ Forall (fun x => Regex.line_terminator x = false) t) ->
  extractPluginName (a ++ b ++ c_slash :: name ++ suffix) = name
  /\ spec_plugin_name (a ++ b ++ c_slash :: name ++ suffix) = name.
Proof.
  intros Hbang Ha Hbc Hba Hne Hname Hsuf.
  assert (Forall (fun x => name_unit x = true) name) as Hname'.
  { eapply Forall_impl; [exact Hname|]. intros x Hx. by apply name_unit_spec. }
  split.
  - rewrite extractPluginName_first_match, alias_stripped_no_bang by done.
    rewrite first_match_skip, first_match_stretch by done.
    cbn [first_match]. rewrite match_at_segment; [done..|].
    destruct Hsuf as [->|(d & t & -> & Hd & _ & Ht)]; [by left|].
    right. exists d, t. split_and!; [done| |].
    + apply one_of_spec. destruct Hd as [-> | ->]; set_solver.
    + apply forallb_forall. intros x Hx%list_elem_of_In.
      rewrite Forall_forall in Ht. unfold Regex.dot. by rewrite (Ht _ Hx).
  - unfold spec_plugin_name, last_segment.
    rewrite (app_assoc a b). rewrite last_split_app.
    + unfold strip_tag.
      apply (take_while_app_stop (Regex.none_of [c_colon; c_at]) name suffix).
      * eapply Forall_impl; [exact Hname|]. intros x (_ & Hc & Hat).
        unfold Regex.none_of. apply negb_true_iff, one_of_false.
        rewrite !not_elem_of_cons. pose proof (not_elem_of_nil x). done.
      * destruct Hsuf as [->|(d & t & -> & Hd & _)]; [by left|].
        right. exists d, t. split; [done|].
        unfold Regex.none_of. apply negb_false_iff, one_of_spec.
        destruct Hd as [-> | ->]; set_solver.
    + rewrite not_elem_of_app. split.
      * intros Hin. rewrite Forall_forall in Hname.
        by destruct (Hname _ Hin) as [? _].
      * destruct Hsuf as [->|(d & t & -> & Hd & Ht & _)]; [apply not_elem_of_nil|].
        apply not_elem_of_cons. split; [|done].
        destruct Hd as [-> | ->]; done.
Qed.

Lemma C5_witness :
  extractPluginName (js "oci://quay.io/rhdh/my-plugin@sha256:abc") = js "my-plugin"
  /\ spec_plugin_name (js "oci://quay.io/rhdh/my-plugin@sha256:abc") = js "my-plugin".
Proof.
  apply (C5_last_segment_name (js "oci:") (js "//quay.io/rhdh")
                              (js "my-plugin") (js "@sha256:abc")).
  - compute_done.
  - compute_done.
  - compute_done.
  - compute_done.
  - vm_compute. discriminate.
  - vm_compute. repeat constructor; discriminate.
  - right. exists c_at, (js "sha256:abc"). split_and!.
    + reflexivity.
    + by right.
    + compute_done.
    + vm_compute. repeat constructor.
Defined.

(** C6 (as stated) fails: a reference that ends in a slash is not returned
    unchanged when the part before its [!] has a match. *)
Lemma C6_counterexample :
  exists r : jsstring,
    r = js "oci://quay.io/rhdh/plugin@sha256:abc!alias/"
    /\ List.last r 0%N = c_slash
    /\ extractPluginName r = js "plugin"
    /\ extractPluginName r <> r.
Proof.
  eexists. split; [reflexivity|]. split_and!.
  - vm_compute. reflexivity.
  - vm_compute. reflexivity.
  - vm_compute. discriminate.
Qed.

(** C6 (amended): [extractPluginName] yields a string for every input; the
    empty string gives the empty string; a string with no slash is returned
    unchanged; and a string that ends in a slash, holds no [!] and holds
    neither colon nor at-sign after its first slash is returned unchanged
    ([a] is the part before the first slash). *)
Theorem C6_total_with_fallbacks :
  (forall r : jsstring, exists out : jsstring, extractPluginName r = out)
  /\ extractPluginName [] = []
  /\ (forall r : jsstring, c_slash ∉ r -> extractPluginName r = r)
  /\ (forall a b : jsstring,
        c_bang ∉ a ++ b -> c_slash ∉ a -> c_colon ∉ b -> c_at ∉ b ->
        extractPluginName (a ++ b ++ [c_slash]) = a ++ b ++ [c_slash]).
Proof.
  split_and!.
  - intros r. by eexists.
  - reflexivity.
  - intros r Hr. rewrite extractPluginName_first_match.
    assert (c_slash ∉ alias_stripped r) as Hs.
    { intros Hin. apply Hr. by apply alias_stripped_elem. }
    by rewrite first_match_no_slash.
  - intros a b Hbang Ha Hc Hat. rewrite extractPluginName_first_match.
    rewrite alias_stripped_no_bang.
    + by rewrite first_match_skip, first_match_trailing_slash.
    + rewrite app_assoc, not_elem_of_app, not_elem_of_cons.
      split_and!; [done..|apply not_elem_of_nil].
Qed.

Lemma C6_witness :
  extractPluginName (js "") = js ""
  /\ extractPluginName (js "my-plugin:1.0") = js "my-plugin:1.0"
  /\ extractPluginName (js "oci://quay.io/rhdh/") = js "oci://quay.io/rhdh/".
Proof.
  destruct C6_total_with_fallbacks as (_ & Hempty & Hnoslash & Htrailing).
  split_and!.
  - exact Hempty.
  - apply Hnoslash. compute_done.
  - apply (Htrailing (js "oci:") (js "//quay.io/rhdh")); compute_done.
Defined.

(** ** The metadata index *)

Section JsMapFacts.
Context {V : Type}.
Implicit Types (m : JsMap.t V) (k : jsstring) (v : V).

Lemma JsMap_get_set_eq k v m : JsMap.get k (JsMap.set k v m) = Some v.
Proof.
  induction m as [|[k' v'] m IH]; simpl.
  - by rewrite decide_True.
  - destruct (decide (k' = k)); simpl.
    + by rewrite decide_True.
    + by rewrite decide_False.
Qed.

Lemma JsMap_get_set_ne k k' v m :
  k <> k' -> JsMap.get k (JsMap.set k' v m) = JsMap.get k m.
Proof.
  intros Hne. induction m as [|[k0 v0] m IH]; simpl.
  - by rewrite decide_False.
  - destruct (decide (k0 = k')) as [->|]; simpl.
    + by rewrite !decide_False.
    + destruct (decide (k0 = k)); [done | exact IH].
Qed.

Lemma JsMap_keys_set k v m :
  k ∈ m.*1 -> (JsMap.set k v m).*1 = m.*1.
Proof.
  induction m as [|[k' v'] m IH]; simpl.
  - by intros ?%elem_of_nil.
  - intros Hin. destruct (decide (k' = k)) as [->|Hne]; simpl; [done|].
    f_equal. apply IH. apply elem_of_cons in Hin as [?|?]; [congruence | done].
Qed.

Lemma JsMap_keys_set_new k v m :
  k ∉ m.*1 -> (JsMap.set k v m).*1 = m.*1 ++ [k].
Proof.
  induction m as [|[k' v'] m IH]; simpl; [done|].
  intros [Hne Hin]%not_elem_of_cons.
  rewrite decide_False by done. simpl. f_equal. by apply IH.
Qed.

Lemma JsMap_set_NoDup k v m : NoDup m.*1 -> NoDup (JsMap.set k v m).*1.
Proof.
  intros Hnd. destruct (decide (k ∈ m.*1)).
  - by rewrite JsMap_keys_set.
  - rewrite JsMap_keys_set_new by done.
    apply NoDup_app. split_and!; [done| |apply NoDup_singleton].
    intros x Hx ->%list_elem_of_singleton. done.
Qed.

Lemma JsMap_get_None k m : JsMap.get k m = None <-> k ∉ m.*1.
Proof.
  induction m as [|[k' v'] m IH]; simpl.
  - split; [intros _; apply not_elem_of_nil | done].
  - rewrite not_elem_of_cons. destruct (decide (k' = k)) as [->|Hne].
    + split; [done | by intros [? _]].
    + rewrite IH. split; [by intros ? | by intros [_ ?]].
Qed.

Lemma JsMap_get_elem k v m : JsMap.get k m = Some v -> (k, v) ∈ m.
Proof.
  induction m as [|[k' v'] m IH]; simpl; [done|].
  destruct (decide (k' = k)) as [->|Hne].
  - intros [= ->]. by left.
  - intros H. right. auto.
Qed.

Lemma JsMap_elem_get k v m : NoDup m.*1 -> (k, v) ∈ m -> JsMap.get k m = Some v.
Proof.
  induction m as [|[k' v'] m IH]; simpl.
  - by intros _ ?%elem_of_nil.
  - intros [Hk Hnd]%NoDup_cons [Heq|Hin]%elem_of_cons.
    + injection Heq as <- <-. by rewrite decide_True.
    + destruct (decide (k' = k)) as [->|Hne]; [|by apply IH].
      exfalso. apply Hk. apply list_elem_of_fmap. by exists (k, v).
Qed.
End JsMapFacts.

(** ** Directory scan *)

Lemma conforms_of_metadata (metadata : PluginMetadata.t) :
  RuntimeMetadata.conforms (RuntimeMetadata.of_metadata metadata)
  = Some metadata.
Proof. by destruct metadata. Qed.

Lemma conforms_inv (record : RuntimeMetadata.t) (metadata : PluginMetadata.t) :
  RuntimeMetadata.conforms record = Some metadata ->
  record = RuntimeMetadata.of_metadata metadata.
Proof.
  destruct record as [path config name source].
  unfold RuntimeMetadata.conforms. cbn.
  destruct path; try done. destruct config; try done.
  by intros [= <-].
Qed.

Lemma conforming_record_spec (w : World) (file : jsstring)
      (metadata : PluginMetadata.t) :
  conforming_record w file = Some metadata
  <-> parseMetadataFile w file
      = Some (RuntimeMetadata.of_metadata metadata).
Proof.
  unfold conforming_record. split.
  - destruct (parseMetadataFile w file) as [record|]; [|done].
    by intros ->%conforms_inv.
  - intros ->. apply conforms_of_metadata.
Qed.

Lemma well_typed_file_spec (w : World) (file : jsstring) :
  well_typed_file w file
  <-> parseMetadataFile w file = None
      \/ exists metadata, conforming_record w file = Some metadata.
Proof.
  unfold well_typed_file. split.
  - intros [?|[md H]]; [by left|]. right. exists md.
    by apply conforming_record_spec.
  - intros [?|[md H]]; [by left|]. right. exists md.
    by apply conforming_record_spec.
Qed.

Section ScanFacts.
Variable w : World.
Implicit Types (m : JsMap.t PluginMetadata.t) (files : list jsstring).

(** The loop goes on with a well-typed map exactly through files that yield
    [null] or a [PluginMetadata]. *)
Lemma scan_step_Scanning state file m' :
  scan_step w state file = Scanning m' ->
  well_typed_file w file
  /\ exists m, state = Scanning m /\ m' = index_step w m file.
Proof.
  unfold scan_step, index_step, conforming_record, well_typed_file.
  destruct state as [m| |message]; [| |done].
  - destruct (parseMetadataFile w file) as [record|] eqn:E.
    + destruct (RuntimeMetadata.packagePath record) eqn:Ep; try done.
      destruct (RuntimeMetadata.conforms record) as [md|] eqn:Ec; [|done].
      intros [= <-]. split.
      * right. exists md. by rewrite (conforms_inv _ _ Ec).
      * exists m. split; [done|]. unfold plugin_key.
        apply conforms_inv in Ec. subst record. cbn in Ep.
        by injection Ep as <-.
    + intros [= <-]. split; [by left|]. by exists m.
  - destruct (parseMetadataFile w file) as [record|]; [|done].
    by destruct (RuntimeMetadata.packagePath record).
Qed.

Lemma scan_step_well_typed m file :
  well_typed_file w file ->
  scan_step w (Scanning m) file = Scanning (index_step w m file).
Proof.
  unfold scan_step, index_step, conforming_record.
  intros [->|[md ->]]; [done|].
  rewrite conforms_of_metadata. by destruct md.
Qed.

Lemma scan_Scanning_inv files state m' :
  foldl (scan_step w) state files = Scanning m' ->
  Forall (well_typed_file w) files
  /\ exists m, state = Scanning m /\ m' = foldl (index_step w) m files.
Proof.
  revert state. induction files as [|f files IH]; intros state; simpl.
  - intros ->. split; [done|]. by exists m'.
  - intros (Hfiles & m1 & (Hf & m & -> & ->)%scan_step_Scanning & ->)%IH.
    split; [by constructor|]. by exists m.
Qed.

Lemma scan_well_typed files m :
  Forall (well_typed_file w) files ->
  foldl (scan_step w) (Scanning m) files
  = Scanning (foldl (index_step w) m files).
Proof.
  intros H. revert m. induction H as [|f files Hf _ IH]; intros m; cbn [foldl].
  - done.
  - by rewrite scan_step_well_typed, IH.
Qed.

(** The scan returns exactly when every file yields [null] or a
    [PluginMetadata], and then with the map that the loop builds. *)
Lemma parseAllMetadataFiles_Ok metadataDir index :
  parseAllMetadataFiles w metadataDir = Ok index
  <-> Forall (well_typed_file w) (metadata_files w metadataDir)
      /\ index = foldl (index_step w) JsMap.empty (metadata_files w metadataDir).
Proof.
  unfold parseAllMetadataFiles. fold (metadata_files w metadataDir). split.
  - destruct (foldl (scan_step w) (Scanning JsMap.empty)
                    (metadata_files w metadataDir)) as [m| |message] eqn:E;
      [|done..].
    intros [= <-].
    apply scan_Scanning_inv in E as (Hfiles & m0 & [= <-] & ->). done.
  - intros [Hfiles ->]. by rewrite scan_well_typed.
Qed.

(** A thrown error ends the loop. *)
Lemma scan_Thrown files message :
  foldl (scan_step w) (Thrown message) files = Thrown message.
Proof. induction files as [|f files IH]; simpl; [done|]. exact IH. Qed.

Lemma scan_NoDup files m :
  NoDup m.*1 -> NoDup (foldl (index_step w) m files).*1.
Proof.
  revert m. induction files as [|f files IH]; intros m Hm; simpl; [done|].
  apply IH. unfold index_step.
  destruct (conforming_record w f); [|done]. by apply JsMap_set_NoDup.
Qed.

(** The loop leaves at each key the record of the last file that yields
    it. *)
Lemma scan_get files m k :
  JsMap.get k (foldl (index_step w) m files)
  = match last_record w k files with
    | Some metadata => Some metadata
    | None => JsMap.get k m
    end.
Proof.
  revert m. induction files as [|f files IH]; intros m; simpl; [done|].
  rewrite IH. destruct (last_record w k files); [done|].
  unfold index_step. destruct (conforming_record w f) as [md|]; [|done].
  destruct (decide (plugin_key md = k)) as [<-|Hne].
  - by rewrite JsMap_get_set_eq.
  - by rewrite JsMap_get_set_ne.
Qed.

Lemma last_record_Some files k metadata :
  last_record w k files = Some metadata ->
  plugin_key metadata = k
  /\ exists file, file ∈ files /\ conforming_record w file = Some metadata.
Proof.
  induction files as [|f files IH]; simpl; [done|].
  destruct (last_record w k files) as [md|].
  - intros [= ->]. destruct IH as (? & file & ? & ?); [done|].
    split; [done|]. exists file. split; [by right | done].
  - destruct (conforming_record w f) as [md|] eqn:E; [|done].
    destruct (decide (plugin_key md = k)); [|done].
    intros [= <-]. split; [done|]. exists f. split; [by left | done].
Qed.

Lemma last_record_None files k :
  last_record w k files = None <->
  forall file metadata,
    file ∈ files -> conforming_record w file = Some metadata ->
    plugin_key metadata <> k.
Proof.
  induction files as [|f files IH]; simpl.
  - split; [by intros _ ?? ?%elem_of_nil | done].
  - destruct (last_record w k files) as [md|] eqn:El.
    + split; [done|]. intros H.
      apply last_record_Some in El as (Hk & file & Hin & Hp).
      exfalso. eapply H; [by right | done..].
    + destruct IH as [IH1 IH2]. specialize (IH1 eq_refl).
      destruct (conforming_record w f) as [md|] eqn:E.
      * destruct (decide (plugin_key md = k)) as [Hk|Hk].
        -- split; [done|]. intros H. exfalso. eapply H; [by left | done..].
        -- split; [|done]. intros _ file md' [->|Hin]%elem_of_cons Hp.
           ++ congruence.
           ++ by eapply IH1.
      * split; [|done]. intros _ file md' [->|Hin]%elem_of_cons Hp.
        -- congruence.
        -- by eapply IH1.
Qed.

Lemma last_record_app files1 file files2 k metadata :
  conforming_record w file = Some metadata ->
  plugin_key metadata = k ->
  last_record w k files2 = None ->
  last_record w k (files1 ++ file :: files2) = Some metadata.
Proof.
  intros Hp Hk Hl. induction files1 as [|f files1 IH]; simpl.
  - rewrite Hl, Hp. by rewrite decide_True.
  - by rewrite IH.
Qed.

Lemma index_NoDup metadataDir index :
  parseAllMetadataFiles w metadataDir = Ok index -> NoDup index.*1.
Proof.
  intros [_ ->]%parseAllMetadataFiles_Ok. apply scan_NoDup, NoDup_nil_2.
Qed.

Lemma index_get metadataDir index k :
  parseAllMetadataFiles w metadataDir = Ok index ->
  JsMap.get k index = last_record w k (metadata_files w metadataDir).
Proof.
  intros [_ ->]%parseAllMetadataFiles_Ok. unfold JsMap.empty.
  rewrite scan_get. by destruct (last_record w k (metadata_files w metadataDir)).
Qed.
End ScanFacts.

(** A descriptor whose configuration example is present but is the empty
    mapping is not skipped (the empty mapping is truthy): it yields a record
    with an empty configuration. *)
Example parseMetadataFile_accepts_empty_mapping :
  parseMetadataFile empty_content_world (js "/repo/metadata/p.yaml")
  = Some {| RuntimeMetadata.packagePath := VStr (js "./dynamic-plugins/dist/p");
            RuntimeMetadata.pluginConfig := VObj ∅;
            RuntimeMetadata.packageName := VStr (js "");
            RuntimeMetadata.sourceFile := js "/repo/metadata/p.yaml" |}.
Proof. vm_compute. reflexivity. Qed.

(** A content that is falsy is skipped, whatever its type. *)
Example parseMetadataFile_skips_falsy_content :
  parseMetadataFile falsy_content_world (js "/repo/metadata/p.yaml") = None.
Proof. vm_compute. reflexivity. Qed.

(** [parseMetadataFile] gives [null] when the file cannot be read, when it
    cannot be parsed, and, for a parsed document, exactly when the artifact
    path or the content of the first configuration example is absent or
    falsy, or the artifact path cannot be converted to a string. *)
Lemma parseMetadataFile_null (w : World) (filePath : jsstring) :
  (readFile w filePath = None -> parseMetadataFile w filePath = None)
  /\ (forall content,
         readFile w filePath = Some content -> yaml_load w content = None ->
         parseMetadataFile w filePath = None)
  /\ (forall content parsed,
         readFile w filePath = Some content ->
         yaml_load w content = Some parsed ->
         (parseMetadataFile w filePath = None <->
          truthy_opt (crd_packagePath parsed) = false
          \/ truthy_opt (crd_pluginConfig parsed) = false
          \/ exists packagePath,
              crd_packagePath parsed = Some packagePath
              /\ interpolation_throws packagePath = true)).
Proof.
  split_and!.
  - intros Hr. unfold parseMetadataFile. by rewrite Hr.
  - intros c Hr Hy. unfold parseMetadataFile. by rewrite Hr, Hy.
  - intros c parsed Hr Hy. unfold parseMetadataFile. rewrite Hr, Hy.
    destruct (crd_packagePath parsed) as [path|]; cbn [truthy_opt].
    + destruct (truthy path); cbn [negb].
      * destruct (crd_pluginConfig parsed) as [config|]; cbn [truthy_opt].
        -- destruct (truthy config); cbn [negb].
           ++ destruct (interpolation_throws path) eqn:Et.
              ** split; [|done]. intros _. right. right. by exists path.
              ** split; [done|]. intros [?|[?|(p & [= <-] & ?)]]; congruence.
           ++ split; [by right; left | done].
        -- split; [by right; left | done].
      * split; [by left | done].
    + split; [by left | done].
Qed.

(** C8: the code at a directory that holds a valid descriptor and a
    descriptor whose artifact path is the number 123.  [parseMetadataFile]
    does not skip the second file: it returns a record whose [packagePath]
    is the number.  [extractPluginName] then throws on it, outside every
    [try], and [parseAllMetadataFiles] rejects: the scan is aborted and
    there is no index for the remaining file. *)
Theorem C8_scan_aborted_by_ill_typed_descriptor :
  metadata_files ill_typed_world metadata_dir
  = [js "/repo/metadata/radar.yaml"; js "/repo/metadata/wrong.yaml"]
  /\ parseMetadataFile ill_typed_world (js "/repo/metadata/radar.yaml")
     = Some (RuntimeMetadata.of_metadata radar_record)
  /\ parseMetadataFile ill_typed_world (js "/repo/metadata/wrong.yaml")
     = Some {| RuntimeMetadata.packagePath := VNum 123;
               RuntimeMetadata.pluginConfig := VObj radar_config;
               RuntimeMetadata.packageName := VStr (js "");
               RuntimeMetadata.sourceFile := js "/repo/metadata/wrong.yaml" |}
  /\ parseAllMetadataFiles ill_typed_world metadata_dir
     = Err (js "packageRef.includes is not a function").
Proof. split_and!; vm_compute; reflexivity. Qed.



(** ** Deep merge *)

Lemma deepMerge_lookup (base override : obj) (k : jsstring) :
  deepMerge base override !! k = merge_entry (override !! k) (base !! k).
Proof.
  unfold deepMerge. rewrite lookup_merge.
  by destruct (override !! k), (base !! k).
Qed.

Lemma merge_value_unfold (b o : value) :
  merge_value b o
  = match o, b with
    | VObj om, VObj bm => VObj (deepMerge bm om)
    | _, _ => o
    end.
Proof. by destruct o, b. Qed.

Lemma merge_value_scalar (b o : value) :
  is_mapping o = false -> merge_value b o = o.
Proof. by destruct o. Qed.

(** A value the override holds at some path, when it is not a mapping,
    is the value of the merge at that path. *)
Lemma deepMerge_path (path : list jsstring) :
  forall (base override : obj) (v : value),
    path <> [] ->
    get_path path (VObj override) = Some v ->
    is_mapping v = false ->
    get_path path (VObj (deepMerge base override)) = Some v.
Proof.
  induction path as [|k path IH]; intros base override v Hne Hget Hv; [done|].
  cbn [get_path] in *. rewrite deepMerge_lookup.
  destruct (override !! k) as [o|]; [|done]. cbn [merge_entry].
  destruct path as [|k' path].
  - cbn [get_path] in *. injection Hget as ->.
    destruct (base !! k); [|done]. by rewrite merge_value_scalar.
  - destruct (base !! k) as [b|]; [|done].
    rewrite merge_value_unfold.
    destruct o as [| | | | |om]; try done.
    destruct b as [| | | | |bm]; try done.
    by apply IH.
Qed.

(** Merging an empty override changes nothing. *)
Lemma deepMerge_empty_override (base : obj) : deepMerge base ∅ = base.
Proof.
  apply map_eq. intros k. rewrite deepMerge_lookup, lookup_empty. done.
Qed.

(** The example of the specification:
    [deepMerge({a: {x:1, y:2}}, {a: {y:99}})] is [{a: {x:1, y:99}}]. *)
Example deepMerge_override_precedence :
  deepMerge
    {[ js "a" := VObj {[ js "x" := VNum 1; js "y" := VNum 2 ]} ]}
    {[ js "a" := VObj {[ js "y" := VNum 99 ]} ]}
  = {[ js "a" := VObj {[ js "x" := VNum 1; js "y" := VNum 99 ]} ]}.
Proof. vm_compute. reflexivity. Qed.

(** ** Metadata injection *)

Lemma inject_plugin_frame idx (entry : PluginEntry.t) :
  PluginEntry.package (inject_plugin idx entry) = PluginEntry.package entry
  /\ PluginEntry.disabled (inject_plugin idx entry) = PluginEntry.disabled entry
  /\ PluginEntry.others (inject_plugin idx entry) = PluginEntry.others entry.
Proof.
  unfold inject_plugin.
  by destruct (JsMap.get (extractPluginName (PluginEntry.package entry)) idx).
Qed.

(** C1: in the document returned by [injectMetadataConfig], an entry whose
    identifier has a record in the index carries as [pluginConfig] the deep
    merge of the record's configuration (base) with the entry's own
    configuration, or the empty mapping when it has none (override).  The
    deep merge works key by key: a key of the override whose two sides are
    mappings is merged recursively, any other key of the override takes the
    override's value, keys of the base alone are kept; so a value of the
    override that is not a mapping is found in the merge at the same path,
    at every depth. *)
Theorem C1_injected_config_is_deep_merge
        (dynamicPluginsConfig : DynamicPluginsConfig.t)
        (metadataMap : JsMap.t PluginMetadata.t)
        (plugins : list PluginEntry.t) (i : nat) (entry : PluginEntry.t)
        (metadata : PluginMetadata.t) :
  DynamicPluginsConfig.plugins dynamicPluginsConfig = Some plugins ->
  plugins !! i = Some entry ->
  JsMap.get (extractPluginName (PluginEntry.package entry)) metadataMap
  = Some metadata ->
  (exists augmented entry',
      DynamicPluginsConfig.plugins
        (injectMetadataConfig dynamicPluginsConfig metadataMap)
      = Some augmented
      /\ augmented !! i = Some entry'
      /\ PluginEntry.pluginConfig entry'
         = Some (deepMerge (PluginMetadata.pluginConfig metadata)
                           (default ∅ (PluginEntry.pluginConfig entry))))
  /\ (forall (base override : obj) (k : jsstring),
         deepMerge base override !! k
         = match override !! k, base !! k with
           | Some o, Some b => Some (merge_value b o)
           | Some o, None => Some o
           | None, b => b
           end)
  /\ (forall b o : value,
         merge_value b o
         = match o, b with
           | VObj om, VObj bm => VObj (deepMerge bm om)
           | _, _ => o
           end)
  /\ (forall (base override : obj) (path : list jsstring) (v : value),
         path <> [] ->
         get_path path (VObj override) = Some v ->
         is_mapping v = false ->
         get_path path (VObj (deepMerge base override)) = Some v).
Proof.
  intros Hplugins Hi Hget. split_and!.
  - exists (inject_plugin metadataMap <$> plugins),
           (inject_plugin metadataMap entry).
    split_and!.
    + unfold injectMetadataConfig. by rewrite Hplugins.
    + by rewrite list_lookup_fmap, Hi.
    + unfold inject_plugin. by rewrite Hget.
  - intros base override k. rewrite deepMerge_lookup.
    by destruct (override !! k), (base !! k).
  - apply merge_value_unfold.
  - intros base override path. by apply deepMerge_path.
Qed.

Lemma C1_witness :
  exists augmented entry',
    DynamicPluginsConfig.plugins
      (injectMetadataConfig user_config sample_index)
    = Some augmented
    /\ augmented !! 0%nat = Some entry'
    /\ PluginEntry.pluginConfig entry'
       = Some (deepMerge radar_v2_config
                 (default ∅ (PluginEntry.pluginConfig user_entry))).
Proof.
  apply (C1_injected_config_is_deep_merge user_config sample_index
           [user_entry; other_entry] 0 user_entry radar_v2_record).
  - reflexivity.
  - reflexivity.
  - vm_compute. reflexivity.
Defined.

(** C2: [injectMetadataConfig] returns a document without a plugins list
    unchanged; otherwise it keeps the other fields of the document, the
    length and order of the list, and, entry by entry, the package, the
    disabled flag and the other properties; an entry whose identifier has no
    record in the index is returned as it is. *)
Theorem C2_injection_frame (dynamicPluginsConfig : DynamicPluginsConfig.t)
        (metadataMap : JsMap.t PluginMetadata.t) :
  (DynamicPluginsConfig.plugins dynamicPluginsConfig = None ->
   injectMetadataConfig dynamicPluginsConfig metadataMap = dynamicPluginsConfig)
  /\ (forall plugins,
         DynamicPluginsConfig.plugins dynamicPluginsConfig = Some plugins ->
         exists augmented,
           DynamicPluginsConfig.plugins
             (injectMetadataConfig dynamicPluginsConfig metadataMap)
           = Some augmented
           /\ length augmented = length plugins
           /\ DynamicPluginsConfig.includes
                (injectMetadataConfig dynamicPluginsConfig metadataMap)
              = DynamicPluginsConfig.includes dynamicPluginsConfig
           /\ DynamicPluginsConfig.others
                (injectMetadataConfig dynamicPluginsConfig metadataMap)
              = DynamicPluginsConfig.others dynamicPluginsConfig
           /\ forall i entry,
               plugins !! i = Some entry ->
               exists entry',
                 augmented !! i = Some entry'
                 /\ PluginEntry.package entry' = PluginEntry.package entry
                 /\ PluginEntry.disabled entry' = PluginEntry.disabled entry
                 /\ PluginEntry.others entry' = PluginEntry.others entry
                 /\ (JsMap.get (extractPluginName (PluginEntry.package entry))
                               metadataMap = None ->
                     entry' = entry)).
Proof.
  split.
  - intros Hnone. unfold injectMetadataConfig. by rewrite Hnone.
  - intros plugins Hplugins.
    exists (inject_plugin metadataMap <$> plugins).
    unfold injectMetadataConfig. rewrite Hplugins. cbn.
    split_and!; [done | by rewrite length_fmap | done | done |].
    intros i entry Hi. exists (inject_plugin metadataMap entry).
    destruct (inject_plugin_frame metadataMap entry) as (Hp & Hd & Ho).
    split_and!; [by rewrite list_lookup_fmap, Hi | done..|].
    intros Hno. unfold inject_plugin. by rewrite Hno.
Qed.

Lemma C2_witness :
  injectMetadataConfig no_plugins_config sample_index = no_plugins_config
  /\ exists augmented,
      DynamicPluginsConfig.plugins
        (injectMetadataConfig user_config sample_index)
      = Some augmented
      /\ length augmented = 2%nat
      /\ augmented !! 1%nat = Some other_entry.
Proof.
  split.
  - apply (C2_injection_frame no_plugins_config sample_index).
    reflexivity.
  - destruct (C2_injection_frame user_config sample_index) as [_ H].
    destruct (H [user_entry; other_entry] eq_refl)
      as (augmented & Ha & Hlen & _ & _ & Hentries).
    exists augmented. split_and!; [done..|].
    destruct (Hentries 1%nat other_entry eq_refl) as (e' & He' & _ & _ & _ & Hsame).
    rewrite He'. f_equal. apply Hsame. vm_compute. reflexivity.
Defined.

(** ** Gating policy *)

Lemma starts_with_app (n post : jsstring) : starts_with n (n ++ post) = true.
Proof.
  induction n as [|x n IH]; simpl; [done|]. by rewrite N.eqb_refl.
Qed.

Lemma includes_app (n pre post : jsstring) :
  includes n (pre ++ n ++ post) = true.
Proof.
  induction pre as [|x pre IH].
  - destruct (n ++ post) eqn:E; cbn [app includes]; rewrite <- E;
      by rewrite starts_with_app.
  - change ((x :: pre) ++ n ++ post) with (x :: (pre ++ n ++ post)).
    cbn [includes]. rewrite IH. apply orb_true_r.
Qed.

Lemma starts_with_inv (n h : jsstring) :
  starts_with n h = true -> exists post, h = n ++ post.
Proof.
  revert h. induction n as [|x n IH]; intros h; [by exists h|].
  destruct h as [|y h]; simpl; [done|].
  intros [->%N.eqb_eq [post ->]%IH]%andb_true_iff. by exists post.
Qed.

Lemma includes_inv (n h : jsstring) :
  includes n h = true -> exists pre post, h = pre ++ n ++ post.
Proof.
  induction h as [|x h IH]; cbn [includes].
  - rewrite orb_false_r. intros [post ->]%starts_with_inv. by exists [], post.
  - intros [[post ->]%starts_with_inv | (pre & post & ->)%IH]%orb_true_iff.
    + by exists [], post.
    + by exists (x :: pre), post.
Qed.

Lemma opt_out_truthy (o : option jsstring) :
  truthy_opt_str o = true <-> exists v, o = Some v /\ v <> [].
Proof.
  destruct o as [[|x v]|]; simpl.
  - split; [done | by intros (v & [= <-] & ?)].
  - split; [intros _; by eexists | done].
  - split; [done | by intros (v & ? & ?)].
Qed.

Lemma job_name_includes (n : jsstring) (o : option jsstring) :
  n <> [] ->
  includes n (or_str o (js "")) = true <->
  exists job pre post, o = Some job /\ job = pre ++ n ++ post.
Proof.
  intros Hn. split.
  - intros (pre & post & Hjob)%includes_inv.
    destruct o as [[|y job]|]; cbn [or_str truthy_str] in Hjob.
    + by exists [], pre, post.
    + by exists (y :: job), pre, post.
    + change (js "") with (@nil N) in Hjob.
      symmetry in Hjob. by apply app_eq_nil in Hjob as [_ [? _]%app_eq_nil].
  - intros (job & pre & post & -> & ->).
    destruct (pre ++ n ++ post) eqn:E; cbn [or_str truthy_str];
      rewrite <- ?E; [|apply includes_app].
    by apply app_eq_nil in E as [_ [? _]%app_eq_nil].
Qed.

(** The policy in the words of the specification: disabled when the opt-out
    variable holds a non-empty value or the job name contains [periodic-]. *)
Lemma shouldInjectPluginMetadata_false (w : World) :
  shouldInjectPluginMetadata w = false <->
  (exists v, env w (js "RHDH_SKIP_PLUGIN_METADATA_INJECTION") = Some v /\ v <> [])
  \/ (exists job pre post,
         env w (js "JOB_NAME") = Some job
         /\ job = pre ++ js "periodic-" ++ post).
Proof.
  rewrite <- opt_out_truthy, <- job_name_includes by done.
  unfold shouldInjectPluginMetadata.
  destruct (truthy_opt_str _), (includes _ _); intuition congruence.
Qed.

(** ** Orchestration *)

(** Full generation over the sample directory: the two descriptors of the
    same plugin leave one entry, that of the file processed last. *)
Example generate_from_sample_directory :
  generateDynamicPluginsConfigFromMetadata pr_world None
  = Ok (config_of_plugins
          [ {| PluginEntry.package := js "oci://quay.io/rhdh/tech-radar:1.2";
               PluginEntry.disabled := Some false;
               PluginEntry.pluginConfig := Some radar_v2_config;
               PluginEntry.others := ∅ |} ]).
Proof. vm_compute. reflexivity. Qed.

(** C3 (as stated) fails: with gating disabled,
    [generateDynamicPluginsConfigFromMetadata] does not hand back an absent
    document, it returns a document with an empty plugins list; and an
    opt-out variable that is set to the empty string does not disable the
    gating, so the input is not passed through. *)
Lemma C3_counterexample :
  (shouldInjectPluginMetadata periodic_world = false
   /\ generateDynamicPluginsConfigFromMetadata periodic_world None
      = Ok (config_of_plugins [])
   /\ returned_document
        (generateDynamicPluginsConfigFromMetadata periodic_world None)
      <> None)
  /\ (env empty_opt_out_world (js "RHDH_SKIP_PLUGIN_METADATA_INJECTION")
      = Some (js "")
      /\ returned_document
           (loadAndInjectPluginMetadata empty_opt_out_world user_config None)
         <> Some user_config).
Proof.
  split_and!; try (vm_compute; reflexivity); vm_compute; discriminate.
Qed.

(** C3 (amended): when the opt-out variable holds a non-empty value or the
    job name contains [periodic-], [loadAndInjectPluginMetadata] returns its
    input document unchanged and
    [generateDynamicPluginsConfigFromMetadata] returns the document with an
    empty plugins list, whatever the metadata directory holds. *)
Theorem C3_gating_disabled (w : World)
        (dynamicPluginsConfig : DynamicPluginsConfig.t)
        (metadataPath : option jsstring) :
  (exists v, env w (js "RHDH_SKIP_PLUGIN_METADATA_INJECTION") = Some v /\ v <> [])
  \/ (exists job pre post,
         env w (js "JOB_NAME") = Some job
         /\ job = pre ++ js "periodic-" ++ post) ->
  loadAndInjectPluginMetadata w dynamicPluginsConfig metadataPath
  = Ok dynamicPluginsConfig
  /\ generateDynamicPluginsConfigFromMetadata w metadataPath
     = Ok (config_of_plugins []).
Proof.
  intros H%shouldInjectPluginMetadata_false.
  unfold loadAndInjectPluginMetadata, generateDynamicPluginsConfigFromMetadata.
  by rewrite H.
Qed.

Lemma C3_witness :
  (loadAndInjectPluginMetadata periodic_world user_config None = Ok user_config
   /\ generateDynamicPluginsConfigFromMetadata periodic_world None
      = Ok (config_of_plugins []))
  /\ (loadAndInjectPluginMetadata opt_out_world user_config None = Ok user_config
      /\ generateDynamicPluginsConfigFromMetadata opt_out_world None
         = Ok (config_of_plugins [])).
Proof.
  split.
  - apply (C3_gating_disabled periodic_world user_config None).
    right. exists (js "periodic-nightly-1"), (js ""), (js "nightly-1").
    split; vm_compute; reflexivity.
  - apply (C3_gating_disabled opt_out_world user_config None).
    left. exists (js "true"). split; [vm_compute; reflexivity | discriminate].
Defined.

(** The index of the sample directory is [sample_index]. *)
Example sample_directory_index :
  parseAllMetadataFiles pr_world metadata_dir = Ok sample_index.
Proof. vm_compute. reflexivity. Qed.

(** C7: the code at a directory that holds a valid descriptor and a
    descriptor whose artifact path is the number 123.  Gating is enabled,
    the directory is found and one of its files yields a valid record, yet
    [generateDynamicPluginsConfigFromMetadata] rejects: the [TypeError]
    thrown by [extractPluginName] in the scan is propagated. *)
Theorem C7_generation_rejects_on_ill_typed_descriptor :
  shouldInjectPluginMetadata ill_typed_world = true
  /\ getMetadataDirectory ill_typed_world None = Some metadata_dir
  /\ parseMetadataFile ill_typed_world (js "/repo/metadata/radar.yaml")
     = Some (RuntimeMetadata.of_metadata radar_record)
  /\ generateDynamicPluginsConfigFromMetadata ill_typed_world None
     = Err (js "packageRef.includes is not a function").
Proof. split_and!; vm_compute; reflexivity. Qed.

(** The two rejections that the function announces: with gating enabled it
    rejects when the metadata directory is not found, with a message that
    ends with the resolved path of the requested directory, and when the
    scan returns an empty index. *)
Lemma generate_announced_rejections (w : World)
      (metadataPath : option jsstring) :
  shouldInjectPluginMetadata w = true ->
  (getMetadataDirectory w metadataPath = None ->
   generateDynamicPluginsConfigFromMetadata w metadataPath
   = Err (js "[PluginMetadata] Cannot generate dynamic-plugins config: metadata directory not found at: "
            ++ path_resolve w (metadataPath_arg metadataPath)))
  /\ (forall metadataDir index,
         getMetadataDirectory w metadataPath = Some metadataDir ->
         parseAllMetadataFiles w metadataDir = Ok index ->
         JsMap.size index = 0%nat ->
         generateDynamicPluginsConfigFromMetadata w metadataPath
         = Err (js "[PluginMetadata] Cannot generate dynamic-plugins config: no valid metadata files found in "
                  ++ metadataDir)).
Proof.
  intros Hgate. unfold generateDynamicPluginsConfigFromMetadata.
  rewrite Hgate. cbn [negb].
  change (getMetadataDirectory w (Some (metadataPath_arg metadataPath)))
    with (getMetadataDirectory w metadataPath).
  split.
  - by intros ->.
  - intros dir index -> -> ->. done.
Qed.

(** C10: with gating enabled and the metadata directory found,
    [loadAndInjectPluginMetadata] rejects whenever the directory yields no
    record, whatever the input document holds. *)
Theorem C10_injection_requires_records (w : World)
        (dynamicPluginsConfig : DynamicPluginsConfig.t)
        (metadataPath : option jsstring) (metadataDir : jsstring)
        (index : JsMap.t PluginMetadata.t) :
  shouldInjectPluginMetadata w = true ->
  getMetadataDirectory w metadataPath = Some metadataDir ->
  parseAllMetadataFiles w metadataDir = Ok index ->
  JsMap.size index = 0%nat ->
  loadAndInjectPluginMetadata w dynamicPluginsConfig metadataPath
  = Err (js "[PluginMetadata] PR build requires plugin metadata but no valid metadata files found in "
           ++ metadataDir)
  /\ returned_document
       (loadAndInjectPluginMetadata w dynamicPluginsConfig metadataPath)
     = None.
Proof.
  intros Hgate Hdir Hscan Hsize. unfold loadAndInjectPluginMetadata.
  rewrite Hgate. cbn [negb].
  change (getMetadataDirectory w (Some (metadataPath_arg metadataPath)))
    with (getMetadataDirectory w metadataPath).
  rewrite Hdir, Hscan, Hsize. done.
Qed.

Lemma C10_witness :
  DynamicPluginsConfig.plugins user_config = Some [user_entry; other_entry]
  /\ returned_document
       (loadAndInjectPluginMetadata no_records_world user_config None)
     = None.
Proof.
  split; [reflexivity|].
  apply (C10_injection_requires_records no_records_world user_config None
           metadata_dir JsMap.empty).
  - vm_compute. reflexivity.
  - vm_compute. reflexivity.
  - vm_compute. reflexivity.
  - reflexivity.
Defined.
(** * Further properties of the module *)

(** ** Canonical identifier extraction *)

Lemma split_first_prefix sep (s : jsstring) :
  exists rest, s = nth 0 (split sep s) [] ++ rest.
Proof.
  induction s as [|x s [rest IH]]; simpl.
  - by exists [].
  - destruct (x =? sep)%N; simpl; [by exists (x :: s)|].
    destruct (split sep s) as [|h t]; simpl in *.
    + exists s. done.
    + exists rest. by rewrite <- IH.
Qed.

Lemma split_first_no_sep sep (s : jsstring) : sep ∉ nth 0 (split sep s) [].
Proof.
  induction s as [|x s IH]; simpl.
  - apply not_elem_of_nil.
  - destruct (N.eqb_spec x sep) as [->|Hne]; simpl; [apply not_elem_of_nil|].
    destruct (split sep s) as [|h t]; simpl in *.
    + rewrite not_elem_of_cons. split; [done | apply not_elem_of_nil].
    + rewrite not_elem_of_cons. split; [done | exact IH].
Qed.

Lemma alias_stripped_prefix (r : jsstring) :
  exists rest, r = alias_stripped r ++ rest.
Proof.
  unfold alias_stripped. destruct (includes (js "!") r).
  - apply split_first_prefix.
  - exists []. by rewrite app_nil_r.
Qed.

Lemma alias_stripped_bang_free (r : jsstring) : c_bang ∉ alias_stripped r.
Proof.
  unfold alias_stripped. destruct (includes (js "!") r) eqn:E.
  - apply split_first_no_sep.
  - intros Hin%includes_bang. congruence.
Qed.

Lemma take_while_Forall p (s : jsstring) :
  Forall (fun x => p x = true) (take_while p s).
Proof.
  induction s as [|x s IH]; simpl; [constructor|].
  destruct (p x) eqn:E; by constructor.
Qed.

(** A match is the run of name units that directly follows a slash. *)
Lemma match_at_inv (s name : jsstring) :
  match_at s = Some name ->
  exists post,
    s = c_slash :: name ++ post
    /\ name <> []
    /\ Forall (fun x => name_unit x = true) name.
Proof.
  destruct s as [|x s]; cbn [match_at]; [done|].
  destruct (Regex.one_of [c_slash] x) eqn:Ex; [|done].
  apply one_of_spec, elem_of_cons in Ex as [->|?%elem_of_nil]; [|done].
  pose proof (take_drop_while name_unit s) as Hs.
  pose proof (take_while_Forall name_unit s) as Hf.
  destruct (take_while name_unit s) as [|y n]; [done|].
  intros H. exists (drop_while name_unit s).
  assert (name = y :: n) as ->.
  { destruct (drop_while name_unit s) as [|z t]; [by injection H|].
    destruct (tag_start z && forallb Regex.dot t); [by injection H | done]. }
  by rewrite Hs.
Qed.

Lemma first_match_inv (s name : jsstring) :
  first_match s = Some name ->
  exists pre post,
    s = pre ++ c_slash :: name ++ post
    /\ name <> []
    /\ Forall (fun x => name_unit x = true) name.
Proof.
  induction s as [|x s IH]; cbn [first_match].
  - done.
  - destruct (match_at (x :: s)) as [n|] eqn:E.
    + intros [= <-]. apply match_at_inv in E as (post & -> & ? & ?).
      by exists [], post.
    + intros (pre & post & -> & ? & ?)%IH. by exists (x :: pre), post.
Qed.

(** The two outcomes of extraction: the fallback, or a name found after a
    slash. *)
Lemma extractPluginName_cases (r : jsstring) :
  extractPluginName r = r
  \/ (exists pre post,
         r = pre ++ c_slash :: extractPluginName r ++ post)
     /\ extractPluginName r <> []
     /\ Forall (fun x => x <> c_slash /\ x <> c_colon /\ x <> c_at /\ x <> c_bang)
               (extractPluginName r).
Proof.
  rewrite extractPluginName_first_match.
  destruct (first_match (alias_stripped r)) as [name|] eqn:E; simpl; [|by left].
  right. pose proof E as (pre & post & Hr & Hne & Hunits)%first_match_inv.
  destruct (alias_stripped_prefix r) as [rest Hrest].
  split_and!.
  - exists pre, (post ++ rest).
    transitivity (alias_stripped r ++ rest); [done|].
    rewrite Hr, <- app_assoc. simpl. by rewrite <- app_assoc.
  - done.
  - rewrite Forall_forall in Hunits. apply Forall_forall. intros x Hx.
    destruct (proj1 (name_unit_spec x) (Hunits x Hx)) as (? & ? & ?).
    split_and!; [done..|]. intros ->.
    apply (alias_stripped_bang_free r). by eapply first_match_elem.
Qed.

Lemma extractPluginName_nil_inv (r : jsstring) :
  extractPluginName r = [] -> r = [].
Proof.
  destruct (extractPluginName_cases r) as [Heq|(_ & Hne & _)].
  - by rewrite Heq.
  - by intros ?.
Qed.

(** X1: the identifier is either the reference itself (the fallback) or a
    non-empty run of units free of slash, colon, at-sign and [!] that stands
    in the reference directly after a slash. *)
Theorem extractPluginName_shape (r : jsstring) :
  extractPluginName r = r
  \/ (exists pre post,
         r = pre ++ c_slash :: extractPluginName r ++ post)
     /\ extractPluginName r <> []
     /\ Forall (fun x => x <> c_slash /\ x <> c_colon /\ x <> c_at /\ x <> c_bang)
               (extractPluginName r).
Proof. apply extractPluginName_cases. Qed.

(** X2: extraction yields the empty string only for the empty reference. *)
Theorem extractPluginName_empty_iff (r : jsstring) :
  extractPluginName r = [] <-> r = [].
Proof.
  split; [apply extractPluginName_nil_inv | by intros ->].
Qed.

(** X3: extraction is idempotent: an identifier is its own identifier. *)
Theorem extractPluginName_idempotent (r : jsstring) :
  extractPluginName (extractPluginName r) = extractPluginName r.
Proof.
  destruct (extractPluginName_cases r) as [Heq|(_ & _ & Hunits)];
    [by rewrite !Heq|].
  rewrite Forall_forall in Hunits.
  rewrite (extractPluginName_first_match (extractPluginName r)).
  rewrite alias_stripped_no_bang, first_match_no_slash; [done| |].
  - intros Hin. by destruct (Hunits _ Hin) as (? & _).
  - intros Hin. by destruct (Hunits _ Hin) as (_ & _ & _ & ?).
Qed.

(** The identifier of a reference whose last segment, possibly followed by a
    tag or digest and by an alias, is [name]. *)
Lemma extractPluginName_segment (a b name suffix alias : jsstring) :
  c_bang ∉ a ++ b ++ c_slash :: name ++ suffix ->
  c_slash ∉ a ->
  c_colon ∉ b -> c_at ∉ b ->
  name <> [] ->
  Forall (fun x => name_unit x = true) name ->
  (suffix = [] \/
   exists d t, suffix = d :: t /\ tag_start d = true
               /\ forallb Regex.dot t = true) ->
  extractPluginName (a ++ b ++ c_slash :: name ++ suffix) = name
  /\ extractPluginName
       ((a ++ b ++ c_slash :: name ++ suffix) ++ c_bang :: alias) = name.
Proof.
  intros Hbang Ha Hc Hat Hne Hname Hsuf.
  assert (first_match (a ++ b ++ c_slash :: name ++ suffix) = Some name) as Hm.
  { rewrite first_match_skip, first_match_stretch by done.
    cbn [first_match]. by rewrite match_at_segment. }
  rewrite !extractPluginName_first_match.
  rewrite alias_stripped_bang, alias_stripped_no_bang by done.
  by rewrite Hm.
Qed.

(** X4: a reference with an alias gets the identifier of the segment before
    its tag or digest, whatever the alias.  Let [ref = a ++ b ++ "/" ++ name ++ suffix] hold no
    [!], where [a] is the part before the first slash, [b] holds neither
    colon nor at-sign, [name] is a non-empty run of units other than slash,
    colon and at-sign, and [suffix] is empty or is a colon or at-sign
    followed by units that are not line terminators.  Then [ref] and
    [ref!alias] both have the identifier [name]. *)
Theorem extractPluginName_with_alias (a b name suffix alias : jsstring) :
  c_bang ∉ a ++ b ++ c_slash :: name ++ suffix ->
  c_slash ∉ a ->
  c_colon ∉ b -> c_at ∉ b ->
  name <> [] ->
  Forall (fun x => x <> c_slash /\ x <> c_colon /\ x <> c_at) name ->
  (suffix = [] \/
   exists d t, suffix = d :: t /\ (d = c_colon \/ d = c_at)
               /\ Forall (fun x => Regex.line_terminator x = false) t) ->
  extractPluginName (a ++ b ++ c_slash :: name ++ suffix) = name
  /\ extractPluginName
       ((a ++ b ++ c_slash :: name ++ suffix) ++ c_bang :: alias) = name.
Proof.
  intros Hbang Ha Hc Hat Hne Hname Hsuf.
  apply extractPluginName_segment; try done.
  - eapply Forall_impl; [exact Hname|]. intros x Hx. by apply name_unit_spec.
  - destruct Hsuf as [->|(d & t & -> & Hd & Ht)]; [by left|].
    right. exists d, t. split_and!; [done| |].
    + apply one_of_spec. destruct Hd as [-> | ->]; compute_done.
    + apply forallb_forall. intros x Hx%list_elem_of_In.
      rewrite Forall_forall in Ht. unfold Regex.dot. by rewrite (Ht _ Hx).
Qed.

Lemma extractPluginName_with_alias_witness :
  extractPluginName (js "oci://quay.io/rhdh/tech-radar@sha256:abc") = js "tech-radar"
  /\ extractPluginName (js "oci://quay.io/rhdh/tech-radar@sha256:abc!some-alias")
     = js "tech-radar".
Proof.
  apply (extractPluginName_with_alias (js "oci:") (js "//quay.io/rhdh")
           (js "tech-radar") (js "@sha256:abc") (js "some-alias")).
  - compute_done.
  - compute_done.
  - compute_done.
  - compute_done.
  - discriminate.
  - vm_compute. repeat constructor; discriminate.
  - right. exists c_at, (js "sha256:abc"). split_and!.
    + reflexivity.
    + by right.
    + vm_compute. repeat constructor.
Defined.

(** ** Descriptor parsing and the metadata index *)

Lemma parseMetadataFile_fields (w : World) (filePath : jsstring)
      (metadata : PluginMetadata.t) :
  conforming_record w filePath = Some metadata ->
  PluginMetadata.sourceFile metadata = filePath
  /\ PluginMetadata.packagePath metadata <> [].
Proof.
  intros H%conforming_record_spec. revert H. unfold parseMetadataFile.
  destruct (readFile w filePath) as [content|]; [|done].
  destruct (yaml_load w content) as [parsed|]; [|done].
  destruct (crd_packagePath parsed) as [path|]; [|done].
  destruct (truthy path) eqn:Ht; cbn [negb]; [|done].
  destruct (crd_pluginConfig parsed) as [config|]; [|done].
  destruct (truthy config); cbn [negb]; [|done].
  destruct (interpolation_throws path); [done|].
  destruct metadata as [p c n s]. unfold RuntimeMetadata.of_metadata. cbn.
  intros [= -> _ _ ->]. split; [done|]. by intros ->.
Qed.

Lemma JsMap_set_new {V : Type} (k : jsstring) (v : V) (m : JsMap.t V) :
  k ∉ m.*1 -> JsMap.set k v m = m ++ [(k, v)].
Proof.
  induction m as [|[k' v'] m IH]; simpl; [done|].
  intros [Hne Hin]%not_elem_of_cons.
  rewrite decide_False by done. by rewrite IH.
Qed.

Lemma JsMap_set_length {V : Type} (k : jsstring) (v : V) (m : JsMap.t V) :
  length (JsMap.set k v m) <= S (length m).
Proof.
  induction m as [|[k' v'] m IH]; simpl; [lia|].
  destruct (decide (k' = k)); simpl; lia.
Qed.

Section IndexFacts.
Variable w : World.
Implicit Types (m : JsMap.t PluginMetadata.t) (files : list jsstring).

Lemma scan_length files m :
  length (foldl (index_step w) m files) <= length m + length files.
Proof.
  revert m. induction files as [|f files IH]; intros m; simpl; [lia|].
  etransitivity; [apply IH|]. unfold index_step.
  destruct (conforming_record w f) as [md|]; [|lia].
  pose proof (JsMap_set_length (plugin_key md) md m). lia.
Qed.

Lemma scan_nothing files m :
  (forall file, file ∈ files -> conforming_record w file = None) ->
  foldl (index_step w) m files = m.
Proof.
  revert m. induction files as [|f files IH]; intros m Hnone; simpl; [done|].
  unfold index_step at 2. rewrite (Hnone f) by (by left).
  apply IH. intros file Hin. apply Hnone. by right.
Qed.

Lemma yielded_records_elem files metadata :
  metadata ∈ yielded_records w files <->
  exists file, file ∈ files /\ conforming_record w file = Some metadata.
Proof.
  induction files as [|f files IH]; simpl.
  - split; [by intros ?%elem_of_nil | by intros (? & ?%elem_of_nil & _)].
  - destruct (conforming_record w f) as [md|] eqn:E.
    + rewrite elem_of_cons, IH. split.
      * intros [->|(file & Hin & Hp)].
        -- exists f. split; [by left | done].
        -- exists file. split; [by right | done].
      * intros (file & [->|Hin]%elem_of_cons & Hp).
        -- left. congruence.
        -- right. by exists file.
    + rewrite IH. split.
      * intros (file & Hin & Hp). exists file. split; [by right | done].
      * intros (file & [->|Hin]%elem_of_cons & Hp); [congruence|].
        by exists file.
Qed.

(** With pairwise different identifiers every yielded record is appended. *)
Lemma scan_distinct files m :
  NoDup (m.*1 ++ (plugin_key <$> yielded_records w files)) ->
  foldl (index_step w) m files
  = m ++ ((fun metadata => (plugin_key metadata, metadata))
            <$> yielded_records w files).
Proof.
  revert m. induction files as [|f files IH]; intros m Hnd; simpl in *.
  - by rewrite app_nil_r.
  - unfold index_step at 2.
    destruct (conforming_record w f) as [md|]; [|by apply IH].
    simpl in Hnd.
    assert (plugin_key md ∉ m.*1) as Hnew.
    { apply NoDup_app in Hnd as (_ & Hdisj & _). intros Hin.
      apply (Hdisj _ Hin). by left. }
    rewrite JsMap_set_new by done. rewrite IH.
    + by rewrite <- app_assoc.
    + rewrite fmap_app. simpl. by rewrite <- app_assoc.
Qed.

Lemma index_elem (metadataDir : jsstring) (index : JsMap.t PluginMetadata.t)
      (k : jsstring) (metadata : PluginMetadata.t) :
  parseAllMetadataFiles w metadataDir = Ok index ->
  (k, metadata) ∈ index ->
  plugin_key metadata = k
  /\ exists file,
      file ∈ metadata_files w metadataDir
      /\ conforming_record w file = Some metadata.
Proof.
  intros Hscan Hin.
  apply (JsMap_elem_get _ _ _ (index_NoDup w _ _ Hscan)) in Hin.
  rewrite (index_get w _ _ _ Hscan) in Hin.
  by apply last_record_Some in Hin.
Qed.

Lemma index_covers (metadataDir : jsstring) (index : JsMap.t PluginMetadata.t)
      (file : jsstring) (metadata : PluginMetadata.t) :
  parseAllMetadataFiles w metadataDir = Ok index ->
  file ∈ metadata_files w metadataDir ->
  conforming_record w file = Some metadata ->
  JsMap.get (plugin_key metadata) index <> None.
Proof.
  intros Hscan Hin Hp. rewrite (index_get w _ _ _ Hscan).
  destruct (last_record w (plugin_key metadata) (metadata_files w metadataDir))
    eqn:E; [done|].
  exfalso. eapply last_record_None in E; [|done..]. done.
Qed.

(** A directory none of whose files yields a record is scanned to the end
    and gives the empty index. *)
Lemma index_of_nothing (metadataDir : jsstring) :
  (forall file,
      file ∈ metadata_files w metadataDir ->
      parseMetadataFile w file = None) ->
  parseAllMetadataFiles w metadataDir = Ok JsMap.empty.
Proof.
  intros Hnone. apply parseAllMetadataFiles_Ok. split.
  - apply Forall_forall. intros file Hin. left. by apply Hnone.
  - rewrite scan_nothing; [done|]. intros file Hin.
    unfold conforming_record. by rewrite Hnone.
Qed.
End IndexFacts.





(** ** Full generation *)






(** ** Gating policy *)

(** X10: metadata handling is enabled exactly when the opt-out variable is
    unset or empty and the job name, if set, does not contain [periodic-];
    in particular it is enabled when neither variable is set. *)
Theorem gating_enabled_iff (w : World) :
  shouldInjectPluginMetadata w = true <->
  (env w (js "RHDH_SKIP_PLUGIN_METADATA_INJECTION") = None
   \/ env w (js "RHDH_SKIP_PLUGIN_METADATA_INJECTION") = Some [])
  /\ (forall job pre post,
         env w (js "JOB_NAME") = Some job ->
         job <> pre ++ js "periodic-" ++ post).
Proof.
  pose proof (shouldInjectPluginMetadata_false w) as Hfalse.
  destruct (shouldInjectPluginMetadata w).
  - split; [intros _ | done]. split.
    + destruct (env w (js "RHDH_SKIP_PLUGIN_METADATA_INJECTION")) as [[|x v]|];
        [by right | | by left].
      exfalso. assert (true = false); [|done]. apply Hfalse. left. by eexists.
    + intros job pre post Hjob Heq.
      assert (true = false); [|done]. apply Hfalse. right. by exists job, pre, post.
  - split; [done|]. intros [Hopt Hjob]. exfalso.
    destruct (proj1 Hfalse eq_refl) as [(v & Hv & Hne)|(job & pre & post & Hj & Heq)].
    + destruct Hopt; congruence.
    + by eapply Hjob.
Qed.

Lemma gating_enabled_iff_witness :
  shouldInjectPluginMetadata empty_opt_out_world = true.
Proof.
  apply (gating_enabled_iff empty_opt_out_world). split.
  - right. vm_compute. reflexivity.
  - intros job pre post Hjob. vm_compute in Hjob. discriminate.
Defined.

(** ** Injection and its entry point *)

(** X11: a document none of whose entries has an identifier in the index is
    returned by [injectMetadataConfig] as it is; in particular injection
    with an empty index changes nothing. *)
Theorem inject_without_match (dynamicPluginsConfig : DynamicPluginsConfig.t)
        (metadataMap : JsMap.t PluginMetadata.t) :
  (forall plugins entry,
      DynamicPluginsConfig.plugins dynamicPluginsConfig = Some plugins ->
      entry ∈ plugins ->
      JsMap.get (extractPluginName (PluginEntry.package entry)) metadataMap
      = None) ->
  injectMetadataConfig dynamicPluginsConfig metadataMap = dynamicPluginsConfig.
Proof.
  intros Hnone. destruct dynamicPluginsConfig as [[plugins|] incl others];
    unfold injectMetadataConfig; simpl in *; [|done].
  f_equal. f_equal. rewrite <- (list_fmap_id plugins) at 2.
  apply list_fmap_ext. intros i entry Hi. unfold inject_plugin.
  rewrite (Hnone plugins entry); [done..|]. by eapply list_elem_of_lookup_2.
Qed.

Lemma inject_without_match_witness :
  injectMetadataConfig user_config JsMap.empty = user_config.
Proof.
  apply (inject_without_match user_config JsMap.empty).
  intros plugins entry _ _. reflexivity.
Defined.

Lemma getMetadataDirectory_resolved (w : World) (metadataPath : option jsstring) :
  getMetadataDirectory w (Some (metadataPath_arg metadataPath))
  = if existsSync w (path_resolve w (metadataPath_arg metadataPath))
       && isDirectory w (path_resolve w (metadataPath_arg metadataPath))
    then Some (path_resolve w (metadataPath_arg metadataPath))
    else None.
Proof. reflexivity. Qed.




